(** * Loggy: a shallow embedding of the analytics proxy (Go) and of the
    helper functions of the browser/Node code (JS) that the spec describes.

    Strings are Stdlib strings of bytes; JSON values are an inductive type
    with objects as association lists in key order; the Go maps
    [map[string]int] are stdpp [gmap string Z]. *)

From Stdlib Require Import ZArith List Ascii String Bool Lia.
From stdpp Require Import base gmap strings.
Import ListNotations.
Open Scope string_scope.
Set Warnings "-register-all".


(* ------------------------------------------------------------------ *)
(** ** String helpers (Go [strings] and JS [String.prototype]) *)

Module Str.

(** [strings.Split(s, sep)] for a one-byte separator. *)
Fixpoint split (sep : ascii) (s : string) : list string :=
  match s with
  | EmptyString => [EmptyString]
  | String c rest =>
      if Ascii.eqb c sep then EmptyString :: split sep rest
      else match split sep rest with
           | [] => [String c EmptyString]
           | w :: ws => String c w :: ws
           end
  end.

(** [strings.Join(parts, sep)]. *)
Fixpoint join (sep : string) (l : list string) : string :=
  match l with
  | [] => EmptyString
  | [w] => w
  | w :: ws => w ++ sep ++ join sep ws
  end.

(** [strings.ToLower] on ASCII bytes. *)
Definition lower_char (c : ascii) : ascii :=
  let n := nat_of_ascii c in
  if (65 <=? n)%nat && (n <=? 90)%nat then ascii_of_nat (n + 32) else c.

Fixpoint lower (s : string) : string :=
  match s with
  | EmptyString => EmptyString
  | String c rest => String (lower_char c) (lower rest)
  end.

Fixpoint is_prefix (p s : string) : bool :=
  match p, s with
  | EmptyString, _ => true
  | String a p', String b s' => Ascii.eqb a b && is_prefix p' s'
  | _, _ => false
  end.

(** [strings.Contains(s, sub)] / JS [s.includes(sub)]. *)
Fixpoint contains (s sub : string) : bool :=
  is_prefix sub s ||
  match s with
  | EmptyString => false
  | String _ rest => contains rest sub
  end.

(** [parts[len(parts)-k:]] (JS [parts.slice(-k)]): the last [k] elements,
    or the whole list when it is shorter. *)
Definition last_n {A} (k : nat) (l : list A) : list A :=
  skipn (length l - k) l.

(** Go [strings.Index(s, string(c))] as an option. *)
Fixpoint index_of (c : ascii) (s : string) : option nat :=
  match s with
  | EmptyString => None
  | String d rest =>
      if Ascii.eqb c d then Some 0%nat
      else option_map S (index_of c rest)
  end.

Definition is_digit (c : ascii) : bool :=
  let n := nat_of_ascii c in (48 <=? n)%nat && (n <=? 57)%nat.

Definition is_letter (c : ascii) : bool :=
  let n := nat_of_ascii c in
  ((65 <=? n)%nat && (n <=? 90)%nat) || ((97 <=? n)%nat && (n <=? 122)%nat).

(** [strings.ReplaceAll(s, "**", "*")]: scans left to right, replacing
    non-overlapping occurrences. *)
Fixpoint replace_double_star (s : string) : string :=
  match s with
  | String "*" (String "*" rest) => String "*" (replace_double_star rest)
  | String c rest => String c (replace_double_star rest)
  | EmptyString => EmptyString
  end.

(** [strings.Trim(s, "[]")]: strips the bytes [ and ] from both ends. *)
Definition is_bracket (c : ascii) : bool :=
  Ascii.eqb c "[" || Ascii.eqb c "]".

Fixpoint trim_left (s : string) : string :=
  match s with
  | String c rest => if is_bracket c then trim_left rest else s
  | EmptyString => EmptyString
  end.

Definition rev_string (s : string) : string :=
  string_of_list_ascii (rev (list_ascii_of_string s)).

Definition trim_brackets (s : string) : string :=
  rev_string (trim_left (rev_string (trim_left s))).

End Str.

(* ------------------------------------------------------------------ *)
(** ** Base domains *)

(** Go, [config.extractBaseDomain] (sources.go). *)
Definition extractBaseDomain (host : string) : string :=
  let host := Str.lower host in
  let parts := Str.split "." host in
  if (2 <=? length parts)%nat then Str.join "." (Str.last_n 2 parts)
  else host.

(** JS, [/^\d+\.\d+\.\d+\.\d+$/]: four non-empty digit runs separated by
    three dots. *)
Definition all_digits (s : string) : bool :=
  forallb Str.is_digit (list_ascii_of_string s).

Definition is_ipv4_literal (h : string) : bool :=
  match Str.split "." h with
  | [a; b; c; d] =>
      forallb (fun w => negb (String.eqb w "") && all_digits w) [a; b; c; d]
  | _ => false
  end.

Definition specialTLDs : list string :=
  ["co.uk"; "com.au"; "co.nz"; "co.jp"; "com.br"].

(** JS, [SourceConfig.extractBaseDomain] (config/source-config.js). *)
Definition js_extractBaseDomain (hostname : string) : string :=
  if String.eqb hostname "" then "" else
  let hostname := hd "" (Str.split ":" hostname) in
  if is_ipv4_literal hostname then hostname else
  let parts := Str.split "." (Str.lower hostname) in
  let lastTwo := Str.join "." (Str.last_n 2 parts) in
  if existsb (String.eqb lastTwo) specialTLDs && (2 <? length parts)%nat
  then Str.join "." (Str.last_n 3 parts)
  else if (2 <=? length parts)%nat then Str.join "." (Str.last_n 2 parts)
  else hostname.

(* ------------------------------------------------------------------ *)
(** ** Go [net/url]: the parts of [url.Parse] and [URL.Hostname] that
    [Source.Matches] uses.  Not modelled: the control-byte check,
    the percent-decoding of the path (and its invalid-escape error), and
    the validation and unescaping of the host and its port. *)

Record URL := mkURL {
  Scheme : string;
  Host : string;
  Path : string;
  RawQuery : string
}.

(** Splits [s] at the first byte [c]: [Some (before, after)] or [None]. *)
Fixpoint cut (c : ascii) (s : string) : option (string * string) :=
  match s with
  | EmptyString => None
  | String d rest =>
      if Ascii.eqb c d then Some (EmptyString, rest)
      else match cut c rest with
           | Some (a, b) => Some (String d a, b)
           | None => None
           end
  end.

Definition cut_or_all (c : ascii) (s : string) : string * string :=
  match cut c s with Some p => p | None => (s, EmptyString) end.

(** [getScheme]: scans the scheme characters; [inr (scheme, rest)], or
    [inl msg] on "missing protocol scheme". *)
Fixpoint scheme_colon (i : nat) (s : string) : option (option nat) :=
  match s with
  | EmptyString => Some None
  | String c rest =>
      if Str.is_letter c then scheme_colon (S i) rest
      else if Str.is_digit c || Ascii.eqb c "+" || Ascii.eqb c "-" || Ascii.eqb c "." then
        if Nat.eqb i 0 then Some None else scheme_colon (S i) rest
      else if Ascii.eqb c ":" then
        if Nat.eqb i 0 then None else Some (Some i)
      else Some None
  end.

Definition getScheme (rawURL : string) : string + (string * string) :=
  match scheme_colon 0 rawURL with
  | None => inl "missing protocol scheme"
  | Some None => inr ("", rawURL)
  | Some (Some i) =>
      inr (substring 0 i rawURL, substring (S i) (String.length rawURL - S i) rawURL)
  end.

(** Index of the last byte [c] in [s]. *)
Definition last_index (c : ascii) (s : string) : option nat :=
  let fix go (i : nat) (s : string) (acc : option nat) :=
    match s with
    | EmptyString => acc
    | String d rest => go (S i) rest (if Ascii.eqb c d then Some i else acc)
    end in
  go 0%nat s None.

(** [url.Parse]: fragment, scheme, query, then "//authority" and path. *)
Definition parseURL (raw : string) : option URL :=
  let '(u, _) := cut_or_all "#" raw in
  match getScheme u with
  | inl _ => None
  | inr (sch, rest) =>
      let '(rest, q) := cut_or_all "?" rest in
      if Str.is_prefix "//" rest && negb (String.eqb sch "" && Str.is_prefix "///" rest)
      then
        let rest := substring 2 (String.length rest - 2) rest in
        let '(auth, p) :=
          match Str.index_of "/" rest with
          | Some i => (substring 0 i rest, substring i (String.length rest - i) rest)
          | None => (rest, "")
          end in
        let host := match last_index "@" auth with
                    | Some i => substring (S i) (String.length auth - S i) auth
                    | None => auth
                    end in
        Some (mkURL (Str.lower sch) host p q)
      else Some (mkURL (Str.lower sch) "" rest q)
  end.

(** [validOptionalPort]: empty, or ":" followed by digits. *)
Definition validOptionalPort (port : string) : bool :=
  match port with
  | EmptyString => true
  | String ":" digits => forallb Str.is_digit (list_ascii_of_string digits)
  | _ => false
  end.

(** [URL.Hostname]: the host without its port and IPv6 brackets. *)
Definition Hostname (u : URL) : string :=
  let hp := Host u in
  let host :=
    match last_index ":" hp with
    | Some i =>
        let port := substring i (String.length hp - i) hp in
        if validOptionalPort port then substring 0 i hp else hp
    | None => hp
    end in
  match host with
  | String "[" rest =>
      match rev (list_ascii_of_string rest) with
      | "]"%char :: r => string_of_list_ascii (rev r)
      | _ => host
      end
  | _ => host
  end.

(* ------------------------------------------------------------------ *)
(** ** Go [path.Match] and [config.matchGlob] *)

Module Glob.

(** Pattern tokens of [path.Match]: [*], [?], a literal byte (also the
    escaped [\c]), and a character class [[^lo-hi...]]. *)
Inductive tok :=
| TStar
| TQuest
| TLit (c : ascii)
| TClass (negated : bool) (ranges : list (ascii * ascii)).

(** [getEsc]: one (possibly escaped) class character; fails on an empty
    rest, on [-] or [], and when nothing follows. *)
Definition getEsc (p : list ascii) : option (ascii * list ascii) :=
  match p with
  | [] => None
  | "-"%char :: _ | "]"%char :: _ => None
  | "\"%char :: c :: rest => match rest with [] => None | _ => Some (c, rest) end
  | "\"%char :: [] => None
  | c :: rest => match rest with [] => None | _ => Some (c, rest) end
  end.

(** The ranges of a class up to its closing bracket ([fuel] bounds the
    number of ranges). *)
Fixpoint class_ranges (fuel : nat) (nrange : nat) (p : list ascii)
  : option (list (ascii * ascii) * list ascii) :=
  match fuel with
  | O => None
  | S fuel =>
      match p with
      | "]"%char :: rest =>
          (* a leading ] is rejected by getEsc *)
          if Nat.ltb 0 nrange then Some ([], rest) else None
      | _ =>
          match getEsc p with
          | None => None
          | Some (lo, "-"%char :: rest) =>
              match getEsc rest with
              | None => None
              | Some (hi, rest') =>
                  match class_ranges fuel (S nrange) rest' with
                  | Some (rs, r) => Some ((lo, hi) :: rs, r)
                  | None => None
                  end
              end
          | Some (lo, rest) =>
              match class_ranges fuel (S nrange) rest with
              | Some (rs, r) => Some ((lo, lo) :: rs, r)
              | None => None
              end
          end
      end
  end.

(** Tokenizes a pattern; [None] is [ErrBadPattern]. *)
Fixpoint tokenize (fuel : nat) (p : list ascii) : option (list tok) :=
  match fuel with
  | O => Some []
  | S fuel =>
      match p with
      | [] => Some []
      | "*"%char :: rest => option_map (cons TStar) (tokenize fuel rest)
      | "?"%char :: rest => option_map (cons TQuest) (tokenize fuel rest)
      | "\"%char :: [] => None
      | "\"%char :: c :: rest => option_map (cons (TLit c)) (tokenize fuel rest)
      | "["%char :: rest =>
          let '(neg, rest) :=
            match rest with "^"%char :: r => (true, r) | _ => (false, rest) end in
          match class_ranges (length rest) 0 rest with
          | Some (rs, rest') => option_map (cons (TClass neg rs)) (tokenize fuel rest')
          | None => None
          end
      | c :: rest => option_map (cons (TLit c)) (tokenize fuel rest)
      end
  end.

Definition in_ranges (c : ascii) (rs : list (ascii * ascii)) : bool :=
  existsb (fun '(lo, hi) =>
             (nat_of_ascii lo <=? nat_of_ascii c)%nat &&
             (nat_of_ascii c <=? nat_of_ascii hi)%nat) rs.

(** Matching of a token list against a name: [*] takes any run of bytes
    other than [/], [?] one byte other than [/], a class one byte. *)
Fixpoint mtoks (ts : list tok) (n : list ascii) : bool :=
  match ts with
  | [] => match n with [] => true | _ => false end
  | TStar :: ts' =>
      (fix star (n : list ascii) : bool :=
         mtoks ts' n ||
         match n with
         | [] => false
         | c :: n' => negb (Ascii.eqb c "/") && star n'
         end) n
  | TQuest :: ts' =>
      match n with [] => false | c :: n' => negb (Ascii.eqb c "/") && mtoks ts' n' end
  | TLit d :: ts' =>
      match n with [] => false | c :: n' => Ascii.eqb c d && mtoks ts' n' end
  | TClass neg rs :: ts' =>
      match n with
      | [] => false
      | c :: n' => negb (Bool.eqb (in_ranges c rs) neg) && mtoks ts' n'
      end
  end.

(** [path.Match(pattern, name)] with its error folded into [false], as
    [matchGlob] discards it. *)
Definition Match (pattern name : string) : bool :=
  let p := list_ascii_of_string pattern in
  match tokenize (length p) p with
  | None => false
  | Some ts => mtoks ts (list_ascii_of_string name)
  end.

End Glob.

(** [matchGlob] (sources.go). *)
Definition matchGlob (str pattern : string) : bool :=
  if Glob.Match pattern str then true
  else if Str.contains pattern "**" then
    let simplePattern := Str.replace_double_star pattern in
    Glob.Match simplePattern str
  else false.

(* ------------------------------------------------------------------ *)
(** ** Sources (internal/config) *)

Record Source := mkSource {
  ID : string;
  Name : string;
  Icon : string;
  Color : string;
  Enabled : bool;
  Domain : string;
  URLPattern : string;
  FieldMappings : list (string * string);
  EventNamePath : string;
  BatchPath : string
}.

(** [Source.Matches]. *)
Definition Matches (s : Source) (urlStr : string) : bool :=
  if negb (Enabled s) then false else
  match parseURL urlStr with
  | None => false
  | Some u =>
      let urlDomain := extractBaseDomain (Hostname u) in
      let sourceDomain := Str.lower (Domain s) in
      if negb (String.eqb urlDomain sourceDomain) then false
      else if negb (String.eqb (URLPattern s) "") then matchGlob (Path u) (URLPattern s)
      else true
  end.

(** [GetDefaultSources]: the seed registry, in order. *)
Definition GetDefaultSources : list Source := [
  mkSource "google-analytics" "Google Analytics" "📊" "#F9AB00" true
    "google-analytics.com" "/*/collect*" [] "en" "";
  mkSource "google-analytics-mp" "Google Analytics (MP)" "📊" "#F9AB00" true
    "google-analytics.com" "/mp/collect*" [] "events[0].name" "events";
  mkSource "segment" "Segment" "📈" "#52BD94" true
    "api.segment.io" "/v1/*" [] "" "batch";
  mkSource "amplitude" "Amplitude" "📉" "#1E61DC" true
    "api.amplitude.com" "" [] "" "events";
  mkSource "mixpanel" "Mixpanel" "🔮" "#7856FF" true
    "api.mixpanel.com" "" [] "event" "";
  mkSource "reddit-pixel" "Reddit Pixel" "🔴" "#FF4500" true
    "alb.reddit.com" "/rp.gif*" [] "event" "";
  mkSource "heap" "Heap Analytics" "🏔️" "#FF6B00" true
    "heapanalytics.com" "" [] "a" "b";
  mkSource "posthog" "PostHog" "🦔" "#F9BD2B" true
    "app.posthog.com" "" [] "" "batch";
  mkSource "rudderstack" "RudderStack" "🚀" "#3F77F4" true
    "rudderstack.com" "" [] "" "batch";
  mkSource "grammarly" "Grammarly" "✍️" "#15C39A" true
    "grammarly.com" "" [] "eventName" "events"
].

(** [findMatchingSource] (server.go): the first source that matches. *)
Fixpoint findMatchingSource (sources : list Source) (url : string) : option Source :=
  match sources with
  | [] => None
  | s :: rest => if Matches s url then Some s else findMatchingSource rest url
  end.

Definition segmentSource : Source :=
  nth 2 GetDefaultSources (mkSource "" "" "" "" false "" "" [] "" "").

(* ------------------------------------------------------------------ *)
(** ** JSON values as decoded by [encoding/json] into [interface{}]:
    [nil] is [JNull], objects are [map[string]interface{}] (association
    lists with distinct keys), arrays are [[]interface{}]. Numbers are
    kept integral. *)

Inductive json :=
| JNull
| JBool (b : bool)
| JNum (z : Z)
| JStr (s : string)
| JArr (l : list json)
| JObj (m : list (string * json)).

(** [v, ok := m[key]]. *)
Fixpoint lookup_key (key : string) (m : list (string * json)) : option json :=
  match m with
  | [] => None
  | (k, v) :: rest => if String.eqb k key then Some v else lookup_key key rest
  end.

(** Go [int] is 64 bits: two's-complement wrap-around. *)
Definition wrap64 (z : Z) : Z :=
  (Z.modulo (z + 2 ^ 63) (2 ^ 64) - 2 ^ 63)%Z.

(* ------------------------------------------------------------------ *)
(** ** JSON paths: [parseJSONPath], [parseIndex], [getNestedValue] *)

Record pathPart := mkPart {
  Key : string;
  Index : Z  (* -1 means no index *)
}.

(** [parseIndex]: accumulates decimal digits and stops at the first
    other rune; the returned error is always [nil] (the [bool] is
    [err == nil]). *)
Fixpoint parseIndex_aux (acc : Z) (s : list ascii) : Z :=
  match s with
  | [] => acc
  | c :: rest =>
      if Str.is_digit c
      then parseIndex_aux (wrap64 (acc * 10 + (Z.of_nat (nat_of_ascii c) - 48))) rest
      else acc
  end.

Definition parseIndex (s : string) : Z * bool :=
  (parseIndex_aux 0 (list_ascii_of_string s), true).

Definition parseSegment (segment : string) : pathPart :=
  match Str.index_of "[" segment with
  | Some idx =>
      let key := substring 0 idx segment in
      let indexStr := Str.trim_brackets (substring idx (String.length segment - idx) segment) in
      let '(index, ok) := parseIndex indexStr in
      if ok then mkPart key index else mkPart segment (-1)
  | None => mkPart segment (-1)
  end.

Definition parseJSONPath (path : string) : list pathPart :=
  map parseSegment (Str.split "." path).

(** One iteration of the loop of [getNestedValue]: [None] is the early
    [return nil]. *)
Definition step (current : json) (part : pathPart) : option json :=
  match current with
  | JObj v =>
      match lookup_key (Key part) v with
      | Some val =>
          if (0 <=? Index part)%Z then
            match val with
            | JArr arr =>
                if (Index part <? Z.of_nat (length arr))%Z
                then nth_error arr (Z.to_nat (Index part)) else None
            | _ => None
            end
          else Some val
      | None => None
      end
  | JArr v =>
      if (0 <=? Index part)%Z && (Index part <? Z.of_nat (length v))%Z
      then nth_error v (Z.to_nat (Index part)) else None
  | _ => None
  end.

Fixpoint walk (current : json) (parts : list pathPart) : json :=
  match parts with
  | [] => current
  | part :: rest =>
      match step current part with
      | Some next => walk next rest
      | None => JNull
      end
  end.

(** [getNestedValue(data, path)]: Go's [nil] is [JNull]. *)
Definition getNestedValue (data : list (string * json)) (path : string) : json :=
  walk (JObj data) (parseJSONPath path).

(* ------------------------------------------------------------------ *)
(** ** Event extraction (internal/proxy/parser.go) *)

(** [CapturedEvent]; the random [ID] of [generateID] is not modelled. *)
Record CapturedEvent := mkEvent {
  Timestamp : string;
  Event : string;
  Properties : option (list (string * json));  (* None is a nil map *)
  Context : option (list (string * json));
  UserID : string;
  AnonymousID : string;
  EvType : string;  (* Go field [Type] *)
  EvSource : string;  (* Go field [Source] *)
  SourceName : string;
  SourceIcon : string;
  SourceColor : string;
  RawPayload : json;
  MetaURL : string;
  MetaCapturedAt : string
}.

Definition batchFields : list string := ["batch"; "events"; "data"; "items"; "hits"; "b"].

(** The loop over the common batch field names: the first present field
    whose value is an array. *)
Fixpoint first_array (payloadMap : list (string * json)) (fields : list string)
  : option (list json) :=
  match fields with
  | [] => None
  | field :: rest =>
      match lookup_key field payloadMap with
      | Some (JArr arr) => Some arr
      | _ => first_array payloadMap rest
      end
  end.

(** [extractEvents]. *)
Definition extractEvents (payload : json) (source : Source) : list json :=
  match payload with
  | JObj payloadMap =>
      let from_batch :=
        if negb (String.eqb (BatchPath source) "") then
          match getNestedValue payloadMap (BatchPath source) with
          | JNull => None
          | JArr arr => Some arr
          | _ => None
          end
        else None in
      match from_batch with
      | Some arr => arr
      | None =>
          match first_array payloadMap batchFields with
          | Some arr => arr
          | None => []
          end
      end
  | _ => []
  end.

Definition nameFields : list string :=
  ["event"; "eventName"; "event_name"; "name"; "action"; "en"; "e"; "a"; "type"; "t"].

(** The first field whose value is a non-empty string. *)
Fixpoint first_nonempty_string (m : list (string * json)) (fields : list string)
  : option string :=
  match fields with
  | [] => None
  | field :: rest =>
      match lookup_key field m with
      | Some (JStr str) => if String.eqb str "" then first_nonempty_string m rest else Some str
      | _ => first_nonempty_string m rest
      end
  end.

(** [extractEventName]. *)
Definition extractEventName (event : json) (source : Source) : string :=
  match event with
  | JObj eventMap =>
      let by_path :=
        if negb (String.eqb (EventNamePath source) "") then
          match getNestedValue eventMap (EventNamePath source) with
          | JStr str => Some str
          | _ => None
          end
        else None in
      match by_path with
      | Some str => str
      | None =>
          match first_nonempty_string eventMap nameFields with
          | Some str => str
          | None => "unknown"
          end
      end
  | _ => "unknown"
  end.

Definition propFields : list string := ["properties"; "params"; "data"; "traits"; "p"].

Fixpoint first_object (m : list (string * json)) (fields : list string)
  : option (list (string * json)) :=
  match fields with
  | [] => None
  | field :: rest =>
      match lookup_key field m with
      | Some (JObj props) => Some props
      | _ => first_object m rest
      end
  end.

(** [extractEventData]. *)
Definition extractEventData (event : json) : option (list (string * json)) :=
  match event with
  | JObj eventMap =>
      match first_object eventMap propFields with
      | Some props => Some props
      | None => Some eventMap
      end
  | _ => None
  end.

(** [extractUserIDs]. *)
Definition extractUserIDs (event : json) : string * string :=
  match event with
  | JObj eventMap =>
      (match first_nonempty_string eventMap ["userId"; "user_id"; "uid"] with
       | Some s => s | None => "" end,
       match first_nonempty_string eventMap ["anonymousId"; "anonymous_id"; "anonId"] with
       | Some s => s | None => "" end)
  | _ => ("", "")
  end.

(** [extractContext]. *)
Definition extractContext (event : json) : option (list (string * json)) :=
  match event with
  | JObj eventMap =>
      match lookup_key "context" eventMap with
      | Some (JObj ctxMap) => Some ctxMap
      | _ => None
      end
  | _ => None
  end.

(** The body of the loop of [parsePayload] for one raw event. *)
Definition mkCaptured (timestamp : string) (source : Source) (requestURL : string)
  (rawEvent : json) : CapturedEvent :=
  let '(userID, anonID) := extractUserIDs rawEvent in
  mkEvent timestamp (extractEventName rawEvent source) (extractEventData rawEvent)
    (extractContext rawEvent) userID anonID "track" (ID source) (Name source)
    (Icon source) (Color source) rawEvent requestURL timestamp.

(** [parsePayload], from the decoded payload ([json.Unmarshal], or
    [parseURLEncoded] on failure) and [now.Format(time.RFC3339)]. *)
Definition parsePayload (payload : json) (timestamp : string) (source : Source)
  (requestURL : string) : list CapturedEvent :=
  let events := map (mkCaptured timestamp source requestURL) (extractEvents payload source) in
  match events, payload with
  | [], JNull => []
  | [], _ => [mkCaptured timestamp source requestURL payload]
  | _, _ => events
  end.

(* ------------------------------------------------------------------ *)
(** ** Proxy state and request handling (internal/proxy/server.go) *)

Definition MaxEvents : nat := 1000.

(** The append/evict loop of [handleRequest], for one event. *)
Definition appendEvent {A} (capturedEvents : list A) (event : A) : list A :=
  let capturedEvents := (capturedEvents ++ [event])%list in
  if (MaxEvents <? length capturedEvents)%nat then tl capturedEvents
  else capturedEvents.

Definition appendEvents {A} (capturedEvents : list A) (events : list A) : list A :=
  fold_left appendEvent events capturedEvents.

Definition skipDomains : list string :=
  ["google.com"; "gstatic.com"; "googleapis.com"; "cloudflare.com"].

(** The key [trackUnmatchedDomain] files a host under. *)
Definition unmatchedKey (host : string) : string :=
  let parts := Str.split "." host in
  if (2 <=? length parts)%nat then Str.join "." (Str.last_n 2 parts) else host.

(** [trackUnmatchedDomain]: [unmatchedDomains[host]++] unless skipped. *)
Definition trackUnmatchedDomain (host : string) (unmatchedDomains : gmap string Z)
  : gmap string Z :=
  let host := unmatchedKey host in
  if existsb (String.eqb host) skipDomains then unmatchedDomains
  else <[host := wrap64 (default 0%Z (unmatchedDomains !! host) + 1)]> unmatchedDomains.

Record ProxyState := mkState {
  sources : list Source;
  capturedEvents : list CapturedEvent;
  unmatchedDomains : gmap string Z
}.

(** [Run]: default sources, no events, an empty unmatched map. *)
Definition initialState : ProxyState := mkState GetDefaultSources [] ∅.

(** An intercepted request: method, URL, [Host], and the body after
    [io.ReadAll], [decompress] and decoding ([None] for a nil or empty
    body). *)
Record Request := mkRequest {
  Method : string;
  ReqURL : URL;
  ReqHost : string;
  ReqBody : option json
}.

(** [URL.String] for an absolute URL. *)
Definition URL_String (u : URL) : string :=
  Scheme u ++ "://" ++ Host u ++ Path u ++
  (if String.eqb (RawQuery u) "" then "" else "?" ++ RawQuery u).

(** The URL string built at the top of [handleRequest]. *)
Definition requestURL (req : Request) : string :=
  if String.eqb (Scheme (ReqURL req)) "" then
    "https://" ++ ReqHost req ++ Path (ReqURL req) ++
    (if String.eqb (RawQuery (ReqURL req)) "" then "" else "?" ++ RawQuery (ReqURL req))
  else URL_String (ReqURL req).

(** [handleRequest]; [now] is [time.Now().Format(time.RFC3339)]. *)
Definition handleRequest (now : string) (req : Request) (st : ProxyState) : ProxyState :=
  let url := requestURL req in
  match findMatchingSource (sources st) url with
  | None =>
      mkState (sources st) (capturedEvents st)
        (trackUnmatchedDomain (ReqHost req) (unmatchedDomains st))
  | Some source =>
      match ReqBody req with
      | None => st
      | Some payload =>
          let events := parsePayload payload now source url in
          mkState (sources st) (appendEvents (capturedEvents st) events)
            (unmatchedDomains st)
      end
  end.

(** The [DoFunc] handler: only POST and PUT are inspected. *)
Definition onRequest (now : string) (req : Request) (st : ProxyState) : ProxyState :=
  if String.eqb (Method req) "POST" || String.eqb (Method req) "PUT"
  then handleRequest now req st else st.

(** Operations that change the shared state: intercepted requests,
    [POST /clear], and [POST /sources]. *)
Inductive Op :=
| OpRequest (now : string) (req : Request)
| OpClear
| OpSetSources (newSources : list Source).

Definition apply_op (st : ProxyState) (op : Op) : ProxyState :=
  match op with
  | OpRequest now req => onRequest now req st
  | OpClear => mkState (sources st) [] ∅
  | OpSetSources l => mkState l (capturedEvents st) (unmatchedDomains st)
  end.

Definition run_ops (st : ProxyState) (ops : list Op) : ProxyState :=
  fold_left apply_op ops st.

(** [handleUnmatched] and the [unmatchedDomains] field of [handleEvents]:
    a copy of the map. *)
Definition handleUnmatched (st : ProxyState) : gmap string Z := unmatchedDomains st.

(* ------------------------------------------------------------------ *)
(** ** Native messaging host (internal/nativehost) *)

Record Response := mkResponse {
  Success : bool;
  Error : string;
  Message : string;
  Running : bool;
  PID : Z;
  AutoLaunched : bool
}.

(** [Response{}] with the zero values of Go. *)
Definition zeroResponse : Response := mkResponse false "" "" false 0 false.

(** [handlePing]. *)
Definition handlePing : Response :=
  mkResponse true "" "" false 0 false.

Section NativeHost.

(** The three handlers that spawn, signal or inspect processes; their
    results depend on the operating system. *)
Variables handleStartProxy handleStopProxy handleGetStatus : Response.

(** [handleMessage]: a switch on the action string. *)
Definition handleMessage (action : string) : Response :=
  if String.eqb action "ping" then handlePing
  else if String.eqb action "startProxy" then handleStartProxy
  else if String.eqb action "stopProxy" then handleStopProxy
  else if String.eqb action "getStatus" then handleGetStatus
  else mkResponse false ("Unknown action: " ++ action) "" false 0 false.

End NativeHost.

(* ------------------------------------------------------------------ *)
(** ** JS [Date.prototype.toISOString] and
    [AnalyticsParser.normalizeTimestamp] (parsers.js) *)

Module ISO.

(** Decimal digits of a non-negative integer, at least [width] of them. *)
Fixpoint digits_aux (fuel : nat) (n : Z) (acc : string) : string :=
  match fuel with
  | O => acc
  | S fuel =>
      let d := ascii_of_nat (48 + Z.to_nat (Z.modulo n 10)) in
      let q := Z.div n 10 in
      if (q =? 0)%Z then String d acc else digits_aux fuel q (String d acc)
  end.

Fixpoint zeros (k : nat) : string :=
  match k with O => "" | S k => String "0" (zeros k) end.

Definition pad (width : nat) (n : Z) : string :=
  let s := digits_aux 40 n "" in
  zeros (width - String.length s) ++ s.

(** Days since the epoch to (year, month, day), proleptic Gregorian. *)
Definition civil_from_days (z : Z) : Z * Z * Z :=
  let z := (z + 719468)%Z in
  let era := Z.div z 146097 in
  let doe := (z - era * 146097)%Z in
  let yoe := Z.div (doe - Z.div doe 1460 + Z.div doe 36524 - Z.div doe 146096) 365 in
  let y := (yoe + era * 400)%Z in
  let doy := (doe - (365 * yoe + Z.div yoe 4 - Z.div yoe 100))%Z in
  let mp := Z.div (5 * doy + 2) 153 in
  let d := (doy - Z.div (153 * mp + 2) 5 + 1)%Z in
  let m := if (mp <? 10)%Z then (mp + 3)%Z else (mp - 9)%Z in
  ((if (m <=? 2)%Z then y + 1 else y)%Z, m, d).

Definition msPerDay : Z := 86400000.

(** [new Date(ms).toISOString()]; [None] is the [RangeError] thrown for
    an invalid date (|ms| > 8.64e15). *)
Definition toISOString (ms : Z) : option string :=
  if (8640000000000000 <? Z.abs ms)%Z then None else
  let days := Z.div ms msPerDay in
  let t := Z.modulo ms msPerDay in
  let '(y, m, d) := civil_from_days days in
  let year :=
    if (0 <=? y)%Z && (y <=? 9999)%Z then pad 4 y
    else (if (y <? 0)%Z then "-" else "+") ++ pad 6 (Z.abs y) in
  Some (year ++ "-" ++ pad 2 m ++ "-" ++ pad 2 d ++ "T" ++
        pad 2 (Z.div t 3600000) ++ ":" ++ pad 2 (Z.modulo (Z.div t 60000) 60) ++ ":" ++
        pad 2 (Z.modulo (Z.div t 1000) 60) ++ "." ++ pad 3 (Z.modulo t 1000) ++ "Z").

End ISO.

(** JS truthiness of a decoded value ([undefined] is [JNull]). *)
Definition truthy (v : json) : bool :=
  match v with
  | JNull => false
  | JBool b => b
  | JNum z => negb (z =? 0)%Z
  | JStr s => negb (String.eqb s "")
  | _ => true
  end.

Section Normalize.

(** [Date.now()] at the call, and the engine's date-string parser
    ([None] is an invalid date). *)
Variable nowMs : Z.
Variable dateParse : json -> option Z.

Definition nowISO : string :=
  match ISO.toISOString nowMs with Some s => s | None => "" end.

(** [normalizeTimestamp]; [None] is an uncaught [RangeError]. *)
Definition normalizeTimestamp (timestamp : json) : option string :=
  if negb (truthy timestamp) then Some nowISO else
  match timestamp with
  | JStr s => if Str.contains s "T" then Some s else
      match dateParse timestamp with
      | Some ms => match ISO.toISOString ms with Some r => Some r | None => Some nowISO end
      | None => Some nowISO
      end
  | JNum t =>
      let ms := if (t <? 10000000000)%Z then (t * 1000)%Z else t in
      ISO.toISOString ms
  | _ =>
      match dateParse timestamp with
      | Some ms => match ISO.toISOString ms with Some r => Some r | None => Some nowISO end
      | None => Some nowISO
      end
  end.

End Normalize.

(* ------------------------------------------------------------------ *)
(** ** Reference definitions that follow the spec's words *)

(** The analytics-heuristic substrings of §4.3 (the JS list
    [ANALYTICS_ENDPOINT_PATTERNS]). *)
Definition ANALYTICS_ENDPOINT_PATTERNS : list string :=
  ["/analytics"; "/events"; "/track"; "/collect"; "/log"; "/beacon";
   "/v1/batch"; "/v1/track"; "/evs"; "/telemetry"; "/metrics"].

(** Case-insensitive test of a path against the heuristic list. *)
Definition looksLikeAnalyticsPath (path : string) : bool :=
  existsb (Str.contains (Str.lower path)) ANALYTICS_ENDPOINT_PATTERNS.

(** A path resolver following the claim's words: a step with a key needs
    an object holding that key, then its optional index needs an array
    long enough; a step without key (written [.[i]]) indexes an array. *)
Definition claim_step (current : json) (part : pathPart) : option json :=
  let index_into (v : json) :=
    if (Index part <? 0)%Z then Some v else
    match v with
    | JArr arr => nth_error arr (Z.to_nat (Index part))
    | _ => None
    end in
  if String.eqb (Key part) "" then
    match current with JArr _ => index_into current | _ => None end
  else
    match current with
    | JObj m => match lookup_key (Key part) m with Some v => index_into v | None => None end
    | _ => None
    end.

Fixpoint claim_resolve (current : json) (parts : list pathPart) : option json :=
  match parts with
  | [] => Some current
  | part :: rest =>
      match claim_step current part with
      | Some next => claim_resolve next rest
      | None => None
      end
  end.

(** Number of occurrences of a byte. *)
Fixpoint count_char (c : ascii) (s : string) : nat :=
  match s with
  | EmptyString => 0
  | String d rest => (if Ascii.eqb c d then 1 else 0) + count_char c rest
  end.

(** The request of the Segment scenario of §8. *)
Definition segmentPayload : json :=
  JObj [("batch", JArr [JObj [("event", JStr "Viewed"); ("userId", JStr "u1")];
                        JObj [("event", JStr "Clicked"); ("userId", JStr "u1")]]);
        ("sentAt", JStr "2024-01-01T00:00:00Z")].

Definition segmentRequest : Request :=
  mkRequest "POST" (mkURL "https" "api.segment.io" "/v1/batch" "") "api.segment.io"
    (Some segmentPayload).

(** Bytes that [path.Match] reads as themselves outside a class. *)
Definition glob_plain (c : ascii) : bool :=
  negb (existsb (Ascii.eqb c) ["*"; "?"; "["; "\"]%char).

(* ================================================================== *)
(** * Lemmas *)

Lemma count_char_app c a b :
  count_char c (a ++ b) = count_char c a + count_char c b.
Proof. induction a as [|d a IH]; simpl; [reflexivity|rewrite IH; lia]. Qed.

Lemma split_length c s : length (Str.split c s) = S (count_char c s).
Proof.
  induction s as [|d s IH]; simpl; [reflexivity|].
  rewrite Ascii.eqb_sym.
  destruct (Ascii.eqb c d); simpl.
  - rewrite IH; reflexivity.
  - destruct (Str.split c s) eqn:E; simpl in *; [discriminate|lia].
Qed.

Lemma split_pieces c s : Forall (fun w => count_char c w = 0) (Str.split c s).
Proof.
  induction s as [|d s IH]; simpl.
  - constructor; [reflexivity|constructor].
  - destruct (Ascii.eqb d c) eqn:Ed.
    + constructor; [reflexivity|exact IH].
    + destruct (Str.split c s) as [|w ws] eqn:E.
      * constructor; [simpl; rewrite Ascii.eqb_sym, Ed; reflexivity|constructor].
      * inversion IH; subst.
        constructor; [simpl; rewrite Ascii.eqb_sym, Ed; simpl; assumption|assumption].
Qed.

(** Every base domain computed by the Go proxy holds at most one dot. *)
Lemma extractBaseDomain_dots h : count_char "." (extractBaseDomain h) <= 1.
Proof.
  unfold extractBaseDomain.
  set (l := Str.lower h).
  destruct (2 <=? length (Str.split "." l))%nat eqn:E.
  - apply Nat.leb_le in E.
    pose proof (split_pieces "." l) as HF.
    unfold Str.last_n.
    assert (HL : length (skipn (length (Str.split "." l) - 2) (Str.split "." l)) = 2)
      by (rewrite length_skipn; lia).
    assert (HF' : Forall (fun w => count_char "." w = 0)
                    (skipn (length (Str.split "." l) - 2) (Str.split "." l))).
    { rewrite <- (firstn_skipn (length (Str.split "." l) - 2) (Str.split "." l)) in HF.
      apply List.Forall_app in HF. exact (proj2 HF). }
    destruct (skipn _ _) as [|x [|y [|z r]]]; simpl in HL; try discriminate.
    inversion HF' as [|? ? Hx HF'']; inversion HF''; subst.
    simpl. rewrite count_char_app. simpl. rewrite count_char_app. simpl. lia.
  - apply Nat.leb_gt in E. rewrite split_length in E. lia.
Qed.

(** The seed Segment source holds a three-label domain, which no base
    domain (at most one dot) equals. *)
Lemma segment_never_matches (u : string) : Matches segmentSource u = false.
Proof.
  assert (Hl : Str.lower (Domain segmentSource) = "api.segment.io") by reflexivity.
  assert (He : Enabled segmentSource = true) by reflexivity.
  unfold Matches; rewrite Hl, He; simpl negb; cbv iota.
  destruct (parseURL u) as [url|]; [|reflexivity].
  destruct (String.eqb (extractBaseDomain (Hostname url)) "api.segment.io") eqn:E;
    [|reflexivity].
  apply String.eqb_eq in E.
  pose proof (extractBaseDomain_dots (Hostname url)) as H.
  rewrite E in H. simpl in H. lia.
Qed.

(* ================================================================== *)
(** * Claims *)

(** C1 (code_bug). The Segment scenario: the seed source "segment" has
    domain "api.segment.io", but [Source.Matches] compares it with the
    base domain of the host, "segment.io", so it never matches any URL.
    POSTing the batch payload to https://api.segment.io/v1/batch through
    the proxy with the seed registry captures no event and records
    "segment.io" as an unmatched domain; the parser alone, given the
    Segment source, would produce the two expected events. *)
Theorem C1_segment_batch_not_captured :
  (forall u, Matches segmentSource u = false) /\
  (forall now,
     capturedEvents (onRequest now segmentRequest initialState) = [] /\
     unmatchedDomains (onRequest now segmentRequest initialState)
       = <["segment.io" := 1%Z]> (∅ : gmap string Z)) /\
  (forall now url,
     map (fun e => (Event e, UserID e, EvSource e))
       (parsePayload segmentPayload now segmentSource url)
     = [("Viewed", "u1", "segment"); ("Clicked", "u1", "segment")]).
Proof.
  split; [exact segment_never_matches|].
  split.
  - intros now. split; vm_compute; reflexivity.
  - intros now url. reflexivity.
Qed.

(** C2 (code_bug). The Go [extractBaseDomain] used by the proxy keeps the
    last two labels of every host: for "www.bbc.co.uk" it returns
    "co.uk" (the JS sibling returns "bbc.co.uk"), and for the IPv4 literal
    "192.168.1.1" it returns "1.1" (the JS sibling returns the host). *)
Theorem C2_go_base_domain_misses_suffixes_and_ipv4 :
  extractBaseDomain "www.bbc.co.uk" = "co.uk" /\
  js_extractBaseDomain "www.bbc.co.uk" = "bbc.co.uk" /\
  extractBaseDomain "192.168.1.1" = "1.1" /\
  js_extractBaseDomain "192.168.1.1" = "192.168.1.1".
Proof. vm_compute. repeat split. Qed.

(** A POST to a path with none of the heuristic substrings. *)
Definition checkoutRequest : Request :=
  mkRequest "POST" (mkURL "https" "example.com" "/checkout" "") "example.com"
    (Some (JObj [("item", JStr "x")])).

(** C3 (code_bug): an unmatched POST to https://example.com/checkout,
    whose path holds none of the analytics-heuristic substrings, still
    adds "example.com" with count 1 to the unmatched-domain map: the Go
    [trackUnmatchedDomain] omits the [looksLikeAnalyticsEndpoint] test
    that the Node proxy applies before [trackUnmatchedRequest]. *)
Lemma C3_unmatched_without_heuristic :
  looksLikeAnalyticsPath (Path (ReqURL checkoutRequest)) = false /\
  findMatchingSource GetDefaultSources (requestURL checkoutRequest) = None /\
  unmatchedDomains (onRequest "2024-01-01T00:00:00Z" checkoutRequest initialState)
    = <["example.com" := 1%Z]> (∅ : gmap string Z) /\
  unmatchedDomains (onRequest "2024-01-01T00:00:00Z" checkoutRequest initialState)
    <> unmatchedDomains initialState.
Proof.
  assert (H3 : unmatchedDomains (onRequest "2024-01-01T00:00:00Z" checkoutRequest initialState)
                = <["example.com" := 1%Z]> (∅ : gmap string Z)) by (vm_compute; reflexivity).
  split; [reflexivity|]. split; [vm_compute; reflexivity|].
  split; [exact H3|].
  rewrite H3. intros H.
  apply (f_equal (lookup "example.com")) in H.
  rewrite lookup_insert_eq in H. simpl in H. rewrite lookup_empty in H. discriminate.
Qed.

(** A user source without batch path, event-name path or URL pattern. *)
Definition plainSource : Source :=
  mkSource "custom" "Custom" "📊" "#6366F1" true "example.com" "" [] "" "".

(** C4 (code_bug). The Go [extractEvents] returns no array when the
    payload is a top-level JSON array, and does not probe "records"; in
    both cases [parsePayload] falls back to one event made of the whole
    payload (named "unknown") instead of one event per element. *)
Theorem C4_top_level_array_and_records_not_split (now url : string) :
  map (fun e => (Event e, RawPayload e))
    (parsePayload (JArr [JObj [("event", JStr "A")]; JObj [("event", JStr "B")]])
       now plainSource url)
  = [("unknown", JArr [JObj [("event", JStr "A")]; JObj [("event", JStr "B")]])] /\
  map Event
    (parsePayload (JObj [("records", JArr [JObj [("event", JStr "A")];
                                          JObj [("event", JStr "B")]])])
       now plainSource url)
  = ["unknown"].
Proof. split; reflexivity. Qed.

(** A source whose pattern uses [**]. *)
Definition deepSource : Source :=
  mkSource "deep" "Deep" "📊" "#6366F1" true "example.com" "/a/**" [] "" "".

(** C5 (code_bug). [matchGlob] tries [path.Match] with "/a/**" and then
    with "/a/*" (after replacing the double star by a single star); neither
    crosses a slash, so the
    pattern "/a/**" does not match the path "/a/b/c", and a source with
    that pattern does not match https://example.com/a/b/c. *)
Theorem C5_double_star_does_not_cross_segments :
  matchGlob "/a/b/c" "/a/**" = false /\
  Matches deepSource "https://example.com/a/b/c" = false /\
  matchGlob "/a/b" "/a/**" = true.
Proof. vm_compute. repeat split. Qed.

Lemma appendEvent_length {A} (buf : list A) (e : A) :
  length buf <= MaxEvents -> length (appendEvent buf e) <= MaxEvents.
Proof.
  unfold appendEvent. intros H.
  destruct (MaxEvents <? length (buf ++ [e])%list)%nat eqn:E.
  - apply Nat.ltb_lt in E. rewrite length_app in E. simpl in E.
    destruct (buf ++ [e])%list as [|x l] eqn:Ea; simpl.
    + lia.
    + apply (f_equal (@length A)) in Ea. rewrite length_app in Ea. simpl in Ea. lia.
  - apply Nat.ltb_ge in E. exact E.
Qed.

Lemma appendEvents_length {A} (es buf : list A) :
  length buf <= MaxEvents -> length (appendEvents buf es) <= MaxEvents.
Proof.
  revert buf. induction es as [|e es IH]; intros buf H; simpl; [exact H|].
  apply IH. apply appendEvent_length. exact H.
Qed.

Lemma apply_op_length st op :
  length (capturedEvents st) <= MaxEvents ->
  length (capturedEvents (apply_op st op)) <= MaxEvents.
Proof.
  intros H. destruct op as [now req| |l]; simpl; [|unfold MaxEvents; lia|exact H].
  unfold onRequest. destruct (_ || _); [|exact H].
  unfold handleRequest. destruct (findMatchingSource _ _); [|exact H].
  destruct (ReqBody req); [|exact H].
  simpl. apply appendEvents_length. exact H.
Qed.

Lemma run_ops_length ops st :
  length (capturedEvents st) <= MaxEvents ->
  length (capturedEvents (run_ops st ops)) <= MaxEvents.
Proof.
  unfold run_ops. revert st. induction ops as [|op ops IH]; intros st H; simpl; [exact H|].
  apply IH. apply apply_op_length. exact H.
Qed.

(** C6 (confirmed). From the initial state, after any sequence of
    intercepted requests, clears and source syncs, at most [MaxEvents] =
    1000 events are stored; and appending one event to a full buffer
    yields the buffer without its first (oldest) element, followed by the
    new event. *)
Theorem C6_ring_buffer_bounded_fifo :
  MaxEvents = 1000 /\
  (forall ops, length (capturedEvents (run_ops initialState ops)) <= MaxEvents) /\
  (forall (A : Type) (buf : list A) (e : A), length buf = MaxEvents ->
     exists oldest rest, buf = oldest :: rest /\ appendEvent buf e = (rest ++ [e])%list).
Proof.
  split; [reflexivity|]. split.
  - intros ops. apply run_ops_length. simpl. unfold MaxEvents. lia.
  - intros A buf e H. destruct buf as [|oldest rest]; [unfold MaxEvents in H; discriminate|].
    exists oldest, rest. split; [reflexivity|].
    unfold appendEvent.
    assert (E : (MaxEvents <? length ((oldest :: rest) ++ [e])%list)%nat = true).
    { apply Nat.ltb_lt. rewrite length_app. simpl. simpl in H. lia. }
    rewrite E. reflexivity.
Qed.

Lemma C6_ring_buffer_bounded_fifo_witness :
  length (repeat 0%nat 1000) = MaxEvents /\
  appendEvent (repeat 0%nat 1000) 1%nat = (repeat 0%nat 999 ++ [1%nat])%list.
Proof.
  assert (H : length (repeat 0%nat 1000) = MaxEvents) by (rewrite repeat_length; reflexivity).
  split; [exact H|].
  destruct (proj2 (proj2 C6_ring_buffer_bounded_fifo) nat (repeat 0%nat 1000) 1%nat H)
    as [o [r [Hb Ha]]].
  rewrite Ha. simpl in Hb. injection Hb as _ Hr. rewrite <- Hr. reflexivity.
Defined.

(** C7 (code_bug): in {"a":["p"]} the key "b" is absent, so the path
    a.b[0] has a missing step, yet the Go resolver returns "p": on an
    array intermediate it uses the step's index and ignores its key,
    where the JS [getNestedValue] reads the key "b" of the array, gets
    undefined and returns undefined. *)
Lemma C7_key_ignored_on_array :
  claim_resolve (JObj [("a", JArr [JStr "p"])]) (parseJSONPath "a.b[0]") = None /\
  getNestedValue [("a", JArr [JStr "p"])] "a.b[0]" = JStr "p".
Proof. split; reflexivity. Qed.

(** Outside zero, Unix seconds below 10^10 render as [t * 1000] ms. *)
Lemma normalize_seconds (nowMs : Z) (dateParse : json -> option Z) (t : Z) :
  t <> 0%Z -> (t < 10000000000)%Z ->
  normalizeTimestamp nowMs dateParse (JNum t) = ISO.toISOString (t * 1000).
Proof.
  intros H0 H1. unfold normalizeTimestamp. simpl.
  destruct (t =? 0)%Z eqn:E; [apply Z.eqb_eq in E; contradiction|]. simpl.
  destruct (t <? 10000000000)%Z eqn:E2; [reflexivity|].
  apply Z.ltb_ge in E2. lia.
Qed.

(** C8 (code_bug). [normalizeTimestamp] tests [!timestamp] first, and 0 is
    falsy: the Unix-seconds input 0 renders as the current time (here
    1700000000000 ms) rather than as the instant 0 * 1000 ms,
    "1970-01-01T00:00:00.000Z". *)
Theorem C8_zero_seconds_render_now (dateParse : json -> option Z) :
  normalizeTimestamp 1700000000000 dateParse (JNum 0) = Some "2023-11-14T22:13:20.000Z" /\
  ISO.toISOString (0 * 1000) = Some "1970-01-01T00:00:00.000Z".
Proof. split; vm_compute; reflexivity. Qed.

(** C9 (confirmed). For every action other than ping, startProxy,
    stopProxy and getStatus, [handleMessage] returns success = false with
    the non-empty error "Unknown action: " followed by the action; the
    handler is a total function of the action string. *)
Theorem C9_unknown_action (start stop status : Response) (action : string)
  (H : ~ List.In action ["ping"; "startProxy"; "stopProxy"; "getStatus"]) :
  Success (handleMessage start stop status action) = false /\
  Error (handleMessage start stop status action) = "Unknown action: " ++ action /\
  Error (handleMessage start stop status action) <> "".
Proof.
  unfold handleMessage.
  destruct (String.eqb action "ping") eqn:E1;
    [apply String.eqb_eq in E1; subst; exfalso; apply H; simpl; tauto|].
  destruct (String.eqb action "startProxy") eqn:E2;
    [apply String.eqb_eq in E2; subst; exfalso; apply H; simpl; tauto|].
  destruct (String.eqb action "stopProxy") eqn:E3;
    [apply String.eqb_eq in E3; subst; exfalso; apply H; simpl; tauto|].
  destruct (String.eqb action "getStatus") eqn:E4;
    [apply String.eqb_eq in E4; subst; exfalso; apply H; simpl; tauto|].
  simpl. repeat split. discriminate.
Qed.

Lemma C9_unknown_action_witness :
  Error (handleMessage zeroResponse zeroResponse zeroResponse "restart")
    = "Unknown action: restart".
Proof.
  assert (H : ~ List.In "restart" ["ping"; "startProxy"; "stopProxy"; "getStatus"]).
  { simpl. intros [E|[E|[E|[E|[]]]]]; discriminate. }
  exact (proj1 (proj2 (C9_unknown_action zeroResponse zeroResponse zeroResponse "restart" H))).
Defined.

Lemma existsb_skip (k : string) :
  List.In k skipDomains -> existsb (String.eqb k) skipDomains = true.
Proof.
  intros H. apply existsb_exists. exists k. split; [exact H|]. apply String.eqb_refl.
Qed.

Lemma trackUnmatchedDomain_skip_absent (host : string) (m : gmap string Z) (d : string) :
  List.In d skipDomains -> m !! d = None -> trackUnmatchedDomain host m !! d = None.
Proof.
  intros Hd Hm. unfold trackUnmatchedDomain.
  destruct (existsb (String.eqb (unmatchedKey host)) skipDomains) eqn:E; [exact Hm|].
  rewrite lookup_insert_ne; [exact Hm|].
  intros Heq. subst d. rewrite existsb_skip in E; [discriminate|exact Hd].
Qed.

Lemma apply_op_skip_absent (st : ProxyState) (op : Op) (d : string) :
  List.In d skipDomains -> unmatchedDomains st !! d = None ->
  unmatchedDomains (apply_op st op) !! d = None.
Proof.
  intros Hd Hm. destruct op as [now req| |l]; simpl; [|apply lookup_empty|exact Hm].
  unfold onRequest. destruct (_ || _); [|exact Hm].
  unfold handleRequest. destruct (findMatchingSource _ _).
  - destruct (ReqBody req); exact Hm.
  - simpl. apply trackUnmatchedDomain_skip_absent; assumption.
Qed.

(** C10 (confirmed). An unmatched POST or PUT whose Host's last two
    dot-separated labels form google.com, gstatic.com, googleapis.com or
    cloudflare.com leaves the whole proxy state unchanged, whatever its
    path and body; and after any sequence of requests, clears and source
    syncs from the initial state, none of these four domains is a key of
    the unmatched-domain map served by GET /unmatched and GET /events. *)
Theorem C10_skip_domains_never_recorded :
  (forall (now : string) (req : Request) (st : ProxyState),
     (Method req = "POST" \/ Method req = "PUT") ->
     findMatchingSource (sources st) (requestURL req) = None ->
     List.In (unmatchedKey (ReqHost req)) skipDomains ->
     onRequest now req st = st) /\
  (forall (ops : list Op) (d : string),
     List.In d skipDomains -> handleUnmatched (run_ops initialState ops) !! d = None).
Proof.
  split.
  - intros now req st Hm Hn Hk. unfold onRequest.
    assert (Hp : (String.eqb (Method req) "POST" || String.eqb (Method req) "PUT") = true).
    { destruct Hm as [H|H]; rewrite H; reflexivity. }
    rewrite Hp. unfold handleRequest. rewrite Hn.
    unfold trackUnmatchedDomain. rewrite (existsb_skip _ Hk).
    destruct st; reflexivity.
  - intros ops d Hd. unfold handleUnmatched, run_ops.
    assert (H0 : unmatchedDomains initialState !! d = None) by apply lookup_empty.
    revert H0. generalize initialState.
    induction ops as [|op ops IH]; intros st H; simpl; [exact H|].
    apply IH. apply apply_op_skip_absent; assumption.
Qed.

(** A request to www.google.com that no seed source matches. *)
Definition googleRequest : Request :=
  mkRequest "POST" (mkURL "https" "www.google.com" "/log" "") "www.google.com"
    (Some (JObj [("event", JStr "x")])).

Lemma C10_skip_domains_never_recorded_witness :
  onRequest "t" googleRequest initialState = initialState /\
  handleUnmatched (run_ops initialState [OpRequest "t" googleRequest; OpClear]) !! "google.com"
    = None.
Proof.
  assert (Hm : Method googleRequest = "POST" \/ Method googleRequest = "PUT")
    by (left; reflexivity).
  assert (Hn : findMatchingSource (sources initialState) (requestURL googleRequest) = None)
    by (vm_compute; reflexivity).
  assert (Hk : List.In (unmatchedKey (ReqHost googleRequest)) skipDomains)
    by (vm_compute; left; reflexivity).
  assert (Hd : List.In "google.com" skipDomains) by (simpl; left; reflexivity).
  split.
  - exact (proj1 C10_skip_domains_never_recorded "t" googleRequest initialState Hm Hn Hk).
  - exact (proj2 C10_skip_domains_never_recorded _ "google.com" Hd).
Defined.

(* ================================================================== *)
(** * Further properties of the code *)

(** ** Strings: [strings.Split], [strings.Join], [strings.ToLower] *)

Lemma split_nonempty c s : Str.split c s <> [].
Proof. intros H. pose proof (split_length c s) as L. rewrite H in L. discriminate. Qed.

Lemma split_app c a b :
  Str.split c (a ++ String c b) = (Str.split c a ++ Str.split c b)%list.
Proof.
  induction a as [|d a IH]; simpl.
  - rewrite Ascii.eqb_refl. reflexivity.
  - rewrite IH. destruct (Ascii.eqb d c); [reflexivity|].
    destruct (Str.split c a) as [|w ws] eqn:E; [exfalso; exact (split_nonempty c a E)|].
    reflexivity.
Qed.

Lemma split_nosep c s : count_char c s = 0 -> Str.split c s = [s].
Proof.
  induction s as [|d s IH]; simpl; intros H; [reflexivity|].
  rewrite Ascii.eqb_sym.
  destruct (Ascii.eqb c d); [discriminate|].
  simpl in H. rewrite IH by exact H. reflexivity.
Qed.

Lemma join_cons_string sep d w ws :
  Str.join sep (String d w :: ws) = String d (Str.join sep (w :: ws)).
Proof. destruct ws; reflexivity. Qed.

Lemma join_split c s : Str.join (String c "") (Str.split c s) = s.
Proof.
  induction s as [|d s IH]; simpl; [reflexivity|].
  destruct (Ascii.eqb d c) eqn:E.
  - apply Ascii.eqb_eq in E. subst d.
    destruct (Str.split c s) as [|w ws] eqn:Es; [exfalso; exact (split_nonempty c s Es)|].
    change (Str.join (String c "") ("" :: w :: ws))
      with ("" ++ String c "" ++ Str.join (String c "") (w :: ws)).
    rewrite IH. reflexivity.
  - destruct (Str.split c s) as [|w ws] eqn:Es; [exfalso; exact (split_nonempty c s Es)|].
    cbv iota. rewrite join_cons_string, IH. reflexivity.
Qed.

Lemma split_join c parts :
  parts <> [] -> Forall (fun w => count_char c w = 0) parts ->
  Str.split c (Str.join (String c "") parts) = parts.
Proof.
  induction parts as [|w ws IH]; intros Hn Hf; [contradiction|].
  inversion Hf as [|? ? Hw Hws]; subst.
  destruct ws as [|y ys].
  - simpl. apply split_nosep. exact Hw.
  - change (Str.join (String c "") (w :: y :: ys))
      with (w ++ String c (Str.join (String c "") (y :: ys))).
    rewrite split_app, split_nosep by exact Hw.
    rewrite IH by (discriminate || exact Hws). reflexivity.
Qed.

Lemma lower_char_idem c : Str.lower_char (Str.lower_char c) = Str.lower_char c.
Proof. destruct c as [[] [] [] [] [] [] [] []]; reflexivity. Qed.

Lemma lower_char_dot c : Ascii.eqb "." (Str.lower_char c) = Ascii.eqb "." c.
Proof. destruct c as [[] [] [] [] [] [] [] []]; reflexivity. Qed.

Lemma lower_idem s : Str.lower (Str.lower s) = Str.lower s.
Proof. induction s as [|c s IH]; simpl; [reflexivity|]. rewrite lower_char_idem, IH. reflexivity. Qed.

Lemma lower_app a b : Str.lower (a ++ b) = Str.lower a ++ Str.lower b.
Proof. induction a as [|c a IH]; simpl; [reflexivity|]. rewrite IH. reflexivity. Qed.

Lemma count_dot_lower s : count_char "." (Str.lower s) = count_char "." s.
Proof.
  induction s as [|c s IH]; [reflexivity|].
  cbn [count_char Str.lower]. rewrite lower_char_dot, IH. reflexivity.
Qed.

Lemma split_lower_fixed c s :
  Str.lower s = s -> Forall (fun w => Str.lower w = w) (Str.split c s).
Proof.
  induction s as [|d s IH]; simpl; intros H.
  - constructor; [reflexivity|constructor].
  - injection H as Hd Hs.
    destruct (Ascii.eqb d c).
    + constructor; [reflexivity|exact (IH Hs)].
    + specialize (IH Hs).
      destruct (Str.split c s) as [|w ws]; [constructor; [simpl; rewrite Hd; reflexivity|constructor]|].
      inversion IH as [|? ? Hw Hws]; subst.
      constructor; [simpl; rewrite Hd, Hw; reflexivity|exact Hws].
Qed.

Lemma join_lower_fixed sep parts :
  Str.lower sep = sep -> Forall (fun w => Str.lower w = w) parts ->
  Str.lower (Str.join sep parts) = Str.join sep parts.
Proof.
  intros Hs. induction parts as [|w ws IH]; intros Hf; [reflexivity|].
  inversion Hf as [|? ? Hw Hws]; subst.
  destruct ws as [|y ys]; [exact Hw|].
  change (Str.join sep (w :: y :: ys)) with (w ++ sep ++ Str.join sep (y :: ys)).
  rewrite !lower_app, Hw, Hs, (IH Hws). reflexivity.
Qed.

Lemma Forall_last_n {A} (P : A -> Prop) k l : Forall P l -> Forall P (Str.last_n k l).
Proof.
  intros H. unfold Str.last_n.
  rewrite <- (firstn_skipn (length l - k) l) in H.
  apply List.Forall_app in H. exact (proj2 H).
Qed.

Lemma length_last_n {A} k (l : list A) : k <= length l -> length (Str.last_n k l) = k.
Proof. intros H. unfold Str.last_n. rewrite length_skipn. lia. Qed.

(** ** Base domains and source matching (config/sources.go) *)

(** X1. [extractBaseDomain] is idempotent: a base domain is its own base
    domain. *)
Theorem extractBaseDomain_idempotent (host : string) :
  extractBaseDomain (extractBaseDomain host) = extractBaseDomain host.
Proof.
  unfold extractBaseDomain at 2 3.
  set (l := Str.lower host).
  assert (Hl : Str.lower l = l) by apply lower_idem.
  pose proof (split_pieces "." l) as Hp.
  pose proof (split_lower_fixed "." l Hl) as Hq.
  destruct (2 <=? length (Str.split "." l))%nat eqn:E.
  - apply Nat.leb_le in E.
    pose proof (length_last_n 2 _ E) as HL.
    pose proof (Forall_last_n _ 2 _ Hp) as Hp2.
    pose proof (Forall_last_n _ 2 _ Hq) as Hq2.
    set (r := Str.last_n 2 (Str.split "." l)) in *.
    destruct r as [|x [|y [|z t]]]; simpl in HL; try discriminate.
    unfold extractBaseDomain.
    rewrite (join_lower_fixed "." _ eq_refl Hq2).
    rewrite (split_join "." [x; y]) by (discriminate || exact Hp2).
    reflexivity.
  - apply Nat.leb_gt in E. rewrite split_length in E.
    unfold extractBaseDomain. rewrite Hl.
    rewrite split_nosep by lia. reflexivity.
Qed.

(** X2. A source whose domain holds two dots or more (such as
    "api.segment.io") never matches any URL, whatever its other fields:
    base domains hold at most one dot. *)
Theorem Matches_multi_label_domain_never (s : Source) (u : string) :
  2 <= count_char "." (Domain s) -> Matches s u = false.
Proof.
  intros H. unfold Matches.
  destruct (negb (Enabled s)); [reflexivity|].
  destruct (parseURL u) as [url|]; [|reflexivity].
  destruct (String.eqb (extractBaseDomain (Hostname url)) (Str.lower (Domain s))) eqn:E;
    [|reflexivity].
  apply String.eqb_eq in E.
  pose proof (extractBaseDomain_dots (Hostname url)) as Hd.
  rewrite E, count_dot_lower in Hd. lia.
Qed.

Lemma Matches_multi_label_domain_never_witness :
  2 <= count_char "." (Domain segmentSource) /\
  Matches segmentSource "https://api.segment.io/v1/batch" = false.
Proof.
  assert (H : 2 <= count_char "." (Domain segmentSource)) by (vm_compute; lia).
  split; [exact H|].
  exact (Matches_multi_label_domain_never segmentSource _ H).
Defined.

(** X3. [findMatchingSource] returns the first source of the list that
    matches the URL, and [nil] exactly when no source matches. *)
Theorem findMatchingSource_first (l : list Source) (u : string) :
  (forall s, findMatchingSource l u = Some s <->
     exists pre post, l = (pre ++ s :: post)%list /\ Matches s u = true /\
                      Forall (fun x => Matches x u = false) pre) /\
  (findMatchingSource l u = None <-> Forall (fun x => Matches x u = false) l).
Proof.
  split.
  - intros s. split.
    + induction l as [|x l IH]; simpl; intros H; [discriminate|].
      destruct (Matches x u) eqn:E.
      * injection H as <-. exists [], l. split; [reflexivity|]. split; [exact E|constructor].
      * destruct (IH H) as [pre [post [Hl [Hs Hp]]]].
        exists (x :: pre), post. subst l. split; [reflexivity|]. split; [exact Hs|].
        constructor; assumption.
    + intros [pre [post [Hl [Hs Hp]]]]. subst l.
      induction Hp as [|x pre Hx Hp IH]; simpl; [rewrite Hs; reflexivity|].
      rewrite Hx. exact IH.
  - split.
    + induction l as [|x l IH]; simpl; intros H; [constructor|].
      destruct (Matches x u) eqn:E; [discriminate|].
      constructor; [exact E|exact (IH H)].
    + intros H. induction H as [|x l Hx H IH]; simpl; [reflexivity|].
      rewrite Hx. exact IH.
Qed.

(** ** Unmatched-domain counting (server.go) *)

Lemma wrap64_small (z : Z) : (- 2 ^ 63 <= z < 2 ^ 63)%Z -> wrap64 z = z.
Proof.
  intros H. unfold wrap64. rewrite Z.mod_small by lia. lia.
Qed.

Lemma run_ops_unmatched_step now req st n :
  (Method req = "POST" \/ Method req = "PUT") ->
  findMatchingSource (sources st) (requestURL req) = None ->
  run_ops st (repeat (OpRequest now req) (S n)) =
  run_ops (mkState (sources st) (capturedEvents st)
             (trackUnmatchedDomain (ReqHost req) (unmatchedDomains st)))
          (repeat (OpRequest now req) n).
Proof.
  intros Hm Hn. unfold run_ops. simpl. f_equal.
  unfold onRequest.
  assert (Hp : (String.eqb (Method req) "POST" || String.eqb (Method req) "PUT") = true).
  { destruct Hm as [H|H]; rewrite H; reflexivity. }
  rewrite Hp. unfold handleRequest. rewrite Hn. reflexivity.
Qed.

(** X4. [n] identical POST (or PUT) requests that no source matches, for
    a host whose key is not skipped and not yet counted, leave sources and
    captured events unchanged, set the key's count to [n] (below 2^63),
    and leave every other key unchanged. *)
Theorem unmatched_count_repeated (now : string) (req : Request) (st : ProxyState) (n : nat)
  (Hm : Method req = "POST" \/ Method req = "PUT")
  (Hn : findMatchingSource (sources st) (requestURL req) = None)
  (Hs : existsb (String.eqb (unmatchedKey (ReqHost req))) skipDomains = false)
  (H0 : unmatchedDomains st !! unmatchedKey (ReqHost req) = None)
  (Hb : (Z.of_nat n < 2 ^ 63)%Z) :
  let st' := run_ops st (repeat (OpRequest now req) n) in
  sources st' = sources st /\ capturedEvents st' = capturedEvents st /\
  unmatchedDomains st' !! unmatchedKey (ReqHost req) =
    (if (n =? 0)%nat then None else Some (Z.of_nat n)) /\
  (forall d, d <> unmatchedKey (ReqHost req) ->
     unmatchedDomains st' !! d = unmatchedDomains st !! d).
Proof.
  cbv zeta.
  set (k := unmatchedKey (ReqHost req)) in *.
  enough (G : forall m (j : nat), (Z.of_nat (j + n) < 2 ^ 63)%Z ->
    m !! k = (if (j =? 0)%nat then None else Some (Z.of_nat j)) ->
    let st' := run_ops (mkState (sources st) (capturedEvents st) m)
                 (repeat (OpRequest now req) n) in
    sources st' = sources st /\ capturedEvents st' = capturedEvents st /\
    unmatchedDomains st' !! k =
      (if (j + n =? 0)%nat then None else Some (Z.of_nat (j + n))) /\
    (forall d, d <> k -> unmatchedDomains st' !! d = m !! d)).
  { destruct st as [srcs evs m]. exact (G m 0%nat Hb H0). }
  clear Hb H0.
  induction n as [|n IH]; intros m j Hj Hmj; cbv zeta.
  - simpl. split; [reflexivity|]. split; [reflexivity|].
    split; [rewrite Nat.add_0_r; exact Hmj|]. intros; reflexivity.
  - rewrite run_ops_unmatched_step by assumption.
    assert (Ht : trackUnmatchedDomain (ReqHost req) m = <[k := Z.of_nat (S j)]> m).
    { unfold trackUnmatchedDomain. fold k. rewrite Hs, Hmj.
      f_equal. rewrite wrap64_small; destruct j; simpl; lia. }
    cbn [sources capturedEvents unmatchedDomains]. rewrite Ht.
    assert (Hj' : (Z.of_nat (S j + n) < 2 ^ 63)%Z) by lia.
    assert (Hk : <[k := Z.of_nat (S j)]> m !! k =
                 (if (S j =? 0)%nat then None else Some (Z.of_nat (S j))))
      by (rewrite lookup_insert_eq; reflexivity).
    destruct (IH _ (S j) Hj' Hk) as [H1 [H2 [H3 H4]]].
    rewrite Nat.add_succ_r, <- Nat.add_succ_l.
    split; [exact H1|]. split; [exact H2|]. split; [exact H3|].
    intros d Hd. rewrite H4 by exact Hd. apply lookup_insert_ne. congruence.
Qed.

Lemma unmatched_count_repeated_witness :
  unmatchedDomains (run_ops initialState (repeat (OpRequest "t" checkoutRequest) 3))
    !! "example.com" = Some 3%Z.
Proof.
  assert (Hm : Method checkoutRequest = "POST" \/ Method checkoutRequest = "PUT")
    by (left; reflexivity).
  assert (Hn : findMatchingSource (sources initialState) (requestURL checkoutRequest) = None)
    by (vm_compute; reflexivity).
  assert (Hs : existsb (String.eqb (unmatchedKey (ReqHost checkoutRequest))) skipDomains = false)
    by (vm_compute; reflexivity).
  assert (H0 : unmatchedDomains initialState !! unmatchedKey (ReqHost checkoutRequest) = None)
    by apply lookup_empty.
  assert (Hb : (Z.of_nat 3 < 2 ^ 63)%Z) by (simpl; lia).
  destruct (unmatched_count_repeated "t" checkoutRequest initialState 3 Hm Hn Hs H0 Hb)
    as [_ [_ [H _]]].
  exact H.
Defined.

(** ** The event buffer (server.go, [handleRequest]) *)

Lemma last_n_last_n_app {A} k (l r : list A) :
  Str.last_n k (Str.last_n k l ++ r) = Str.last_n k (l ++ r).
Proof.
  unfold Str.last_n.
  destruct (Nat.le_gt_cases k (length l)) as [H|H].
  - rewrite <- (drop_app_le l r) by lia.
    rewrite skipn_skipn, length_skipn, !length_app.
    f_equal. lia.
  - replace (length l - k) with 0 by lia. reflexivity.
Qed.

Lemma appendEvent_last_n {A} (buf : list A) (e : A) :
  length buf <= MaxEvents -> appendEvent buf e = Str.last_n MaxEvents (buf ++ [e]).
Proof.
  intros H. unfold appendEvent, Str.last_n. rewrite length_app. simpl length.
  destruct (MaxEvents <? length buf + 1)%nat eqn:E.
  - apply Nat.ltb_lt in E. replace (length buf + 1 - MaxEvents) with 1 by lia.
    destruct (buf ++ [e])%list; reflexivity.
  - apply Nat.ltb_ge in E. replace (length buf + 1 - MaxEvents) with 0 by lia. reflexivity.
Qed.

Lemma appendEvents_last_n {A} (es buf : list A) :
  length buf <= MaxEvents -> appendEvents buf es = Str.last_n MaxEvents (buf ++ es).
Proof.
  revert buf. induction es as [|e es IH]; intros buf H.
  - simpl. unfold Str.last_n. rewrite app_nil_r. replace (length buf - MaxEvents) with 0 by lia.
    reflexivity.
  - change (appendEvents buf (e :: es)) with (appendEvents (appendEvent buf e) es).
    rewrite IH by (apply appendEvent_length; exact H).
    rewrite appendEvent_last_n by exact H.
    rewrite last_n_last_n_app, <- app_assoc. reflexivity.
Qed.

(** X5. A request that a source matches and that has a body changes only
    the captured events: from a buffer of at most [MaxEvents] events, they
    become the last [MaxEvents] of the old events followed, in order, by
    the events parsed from the body; sources and the unmatched map are
    kept. *)
Theorem handleRequest_matched_window (now : string) (req : Request) (st : ProxyState)
  (source : Source) (payload : json)
  (Hl : length (capturedEvents st) <= MaxEvents)
  (Hs : findMatchingSource (sources st) (requestURL req) = Some source)
  (Hb : ReqBody req = Some payload) :
  let st' := handleRequest now req st in
  sources st' = sources st /\ unmatchedDomains st' = unmatchedDomains st /\
  capturedEvents st' =
    Str.last_n MaxEvents
      (capturedEvents st ++ parsePayload payload now source (requestURL req)).
Proof.
  cbv zeta. unfold handleRequest. rewrite Hs, Hb. simpl.
  split; [reflexivity|]. split; [reflexivity|].
  apply appendEvents_last_n. exact Hl.
Qed.

(** A POST to the Heap endpoint, matched by the seed source "heap". *)
Definition heapRequest : Request :=
  mkRequest "POST" (mkURL "https" "heapanalytics.com" "/api/track" "") "heapanalytics.com"
    (Some (JObj [("b", JArr [JObj [("a", JStr "view")]; JObj [("a", JStr "click")]])])).

Definition heapSource : Source := nth 6 GetDefaultSources segmentSource.

Lemma handleRequest_matched_window_witness :
  map Event (capturedEvents (handleRequest "t" heapRequest initialState)) = ["view"; "click"].
Proof.
  assert (Hl : length (capturedEvents initialState) <= MaxEvents) by (simpl; unfold MaxEvents; lia).
  assert (Hs : findMatchingSource (sources initialState) (requestURL heapRequest) = Some heapSource)
    by (vm_compute; reflexivity).
  assert (Hb : ReqBody heapRequest =
               Some (JObj [("b", JArr [JObj [("a", JStr "view")]; JObj [("a", JStr "click")]])]))
    by reflexivity.
  destruct (handleRequest_matched_window "t" heapRequest initialState _ _ Hl Hs Hb)
    as [_ [_ H]].
  rewrite H. vm_compute. reflexivity.
Defined.

(** ** Parsing payloads (parser.go) *)

(** X6. [parsePayload] returns no event exactly when the payload is
    [nil]; every event it returns carries the source's id and name, the
    request URL, the type "track" and the timestamp (also as capture
    time). *)
Theorem parsePayload_shape (payload : json) (timestamp : string) (source : Source)
  (url : string) :
  (parsePayload payload timestamp source url = [] <-> payload = JNull) /\
  Forall (fun e => EvSource e = ID source /\ SourceName e = Name source /\
                   MetaURL e = url /\ EvType e = "track" /\
                   Timestamp e = timestamp /\ MetaCapturedAt e = timestamp)
    (parsePayload payload timestamp source url).
Proof.
  assert (Hc : forall raw, let e := mkCaptured timestamp source url raw in
            EvSource e = ID source /\ SourceName e = Name source /\
            MetaURL e = url /\ EvType e = "track" /\
            Timestamp e = timestamp /\ MetaCapturedAt e = timestamp).
  { intros raw. unfold mkCaptured. destruct (extractUserIDs raw). simpl. tauto. }
  unfold parsePayload.
  destruct (map (mkCaptured timestamp source url) (extractEvents payload source)) as [|e es] eqn:E.
  - split.
    + destruct payload; split; intros H; try discriminate; reflexivity.
    + destruct payload; first [constructor; [apply Hc|constructor] | constructor].
  - split.
    + split; intros H; [discriminate|]. subst payload. discriminate.
    + rewrite <- E. apply List.Forall_forall. intros x Hx.
      apply in_map_iff in Hx. destruct Hx as [raw [<- _]]. apply Hc.
Qed.

(** X7. When the source's batch path resolves, in an object payload, to a
    non-empty array, [parsePayload] makes one event per element, in order,
    each carrying its element as raw payload and named from it. *)
Theorem parsePayload_batch_path (m : list (string * json)) (timestamp : string)
  (source : Source) (url : string) (arr : list json)
  (Hp : BatchPath source <> "")
  (Ha : getNestedValue m (BatchPath source) = JArr arr)
  (Hn : arr <> []) :
  map (fun e => (RawPayload e, Event e)) (parsePayload (JObj m) timestamp source url) =
  map (fun raw => (raw, extractEventName raw source)) arr.
Proof.
  assert (He : extractEvents (JObj m) source = arr).
  { unfold extractEvents. apply String.eqb_neq in Hp. rewrite Hp. simpl. rewrite Ha.
    reflexivity. }
  unfold parsePayload. rewrite He.
  destruct arr as [|a arr']; [contradiction|].
  simpl map at 1.
  change (map (fun e => (RawPayload e, Event e))
            (map (mkCaptured timestamp source url) (a :: arr')) =
          map (fun raw => (raw, extractEventName raw source)) (a :: arr')).
  rewrite map_map. apply map_ext. intros raw.
  unfold mkCaptured. destruct (extractUserIDs raw). reflexivity.
Qed.

Lemma parsePayload_batch_path_witness :
  map (fun e => (RawPayload e, Event e))
    (parsePayload (JObj [("b", JArr [JObj [("a", JStr "view")]])]) "t" heapSource "u") =
  [(JObj [("a", JStr "view")], "view")].
Proof.
  assert (Hp : BatchPath heapSource <> "") by (vm_compute; discriminate).
  assert (Ha : getNestedValue [("b", JArr [JObj [("a", JStr "view")]])] (BatchPath heapSource)
               = JArr [JObj [("a", JStr "view")]]) by (vm_compute; reflexivity).
  assert (Hn : [JObj [("a", JStr "view")]] <> []) by discriminate.
  rewrite (parsePayload_batch_path _ "t" heapSource "u" _ Hp Ha Hn).
  vm_compute. reflexivity.
Defined.

(** X8. A payload that is neither an object nor [nil] (an array, a
    string, a number, a boolean) yields exactly one event: named
    "unknown", carrying the whole payload, with nil properties and
    context and empty user ids. *)
Theorem parsePayload_non_object (payload : json) (timestamp : string) (source : Source)
  (url : string)
  (Hobj : forall m, payload <> JObj m) (Hnull : payload <> JNull) :
  map (fun e => (Event e, RawPayload e, Properties e, Context e, UserID e, AnonymousID e))
    (parsePayload payload timestamp source url) =
  [("unknown", payload, None, None, "", "")].
Proof.
  destruct payload as [|b|z|s|l|m]; [contradiction| | | | |exfalso; exact (Hobj m eq_refl)];
    reflexivity.
Qed.

Lemma parsePayload_non_object_witness :
  map (fun e => (Event e, RawPayload e, Properties e, Context e, UserID e, AnonymousID e))
    (parsePayload (JArr [JStr "a"]) "t" heapSource "u") =
  [("unknown", JArr [JStr "a"], None, None, "", "")].
Proof.
  assert (Hobj : forall m, JArr [JStr "a"] <> JObj m) by (intros m; discriminate).
  assert (Hnull : JArr [JStr "a"] <> JNull) by discriminate.
  exact (parsePayload_non_object _ "t" heapSource "u" Hobj Hnull).
Defined.

Lemma first_nonempty_string_nonempty m fields str :
  first_nonempty_string m fields = Some str -> str <> "".
Proof.
  induction fields as [|f fs IH]; simpl; [discriminate|].
  destruct (lookup_key f m) as [[| | | s | |]|]; try exact IH.
  destruct (String.eqb s "") eqn:E; [exact IH|].
  intros H. injection H as <-. apply String.eqb_neq. exact E.
Qed.

(** X9. For a source without an event-name path, the event name is never
    empty: it is a non-empty string field of the event, or "unknown". *)
Theorem extractEventName_nonempty (event : json) (source : Source)
  (Hp : EventNamePath source = "") :
  extractEventName event source <> "".
Proof.
  unfold extractEventName. destruct event; try discriminate.
  rewrite Hp.
  destruct (first_nonempty_string m nameFields) as [str|] eqn:E; simpl; [|discriminate].
  exact (first_nonempty_string_nonempty _ _ _ E).
Qed.

Lemma extractEventName_nonempty_witness :
  extractEventName (JObj [("event", JStr ""); ("name", JStr "Signup")]) segmentSource <> "" /\
  extractEventName (JObj [("event", JStr ""); ("name", JStr "Signup")]) segmentSource = "Signup".
Proof.
  assert (Hp : EventNamePath segmentSource = "") by reflexivity.
  split; [exact (extractEventName_nonempty _ segmentSource Hp)|reflexivity].
Defined.

(** ** JSON paths (parser.go) *)

Lemma walk_JNull parts : parts <> [] -> walk JNull parts = JNull.
Proof. destruct parts; [contradiction|reflexivity]. Qed.

Lemma walk_app v ps1 ps2 :
  ps2 <> [] -> walk v (ps1 ++ ps2) = walk (walk v ps1) ps2.
Proof.
  intros H. revert v. induction ps1 as [|p ps1 IH]; intros v; simpl; [reflexivity|].
  destruct (step v p); [apply IH|symmetry; apply walk_JNull; exact H].
Qed.

Lemma parseJSONPath_dot p1 p2 :
  parseJSONPath (p1 ++ "." ++ p2) = (parseJSONPath p1 ++ parseJSONPath p2)%list.
Proof.
  unfold parseJSONPath. change ("." ++ p2) with (String "." p2).
  rewrite split_app, map_app. reflexivity.
Qed.

(** X10. Resolving a dotted path [p1.p2] is resolving [p2] from the value
    found at [p1]: a missing step in [p1] gives [nil] for the whole
    path. *)
Theorem getNestedValue_dot (data : list (string * json)) (p1 p2 : string) :
  getNestedValue data (p1 ++ "." ++ p2) = walk (getNestedValue data p1) (parseJSONPath p2).
Proof.
  unfold getNestedValue. rewrite parseJSONPath_dot. apply walk_app.
  unfold parseJSONPath. intros H. apply map_eq_nil in H. exact (split_nonempty _ _ H).
Qed.

(** ** Glob patterns ([path.Match] as used by [matchGlob]) *)

Lemma list_ascii_of_string_app a b :
  list_ascii_of_string (a ++ b) = (list_ascii_of_string a ++ list_ascii_of_string b)%list.
Proof. induction a as [|c a IH]; simpl; [reflexivity|]. rewrite IH. reflexivity. Qed.

Lemma tokenize_plain_cons fuel c rest :
  glob_plain c = true ->
  Glob.tokenize (S fuel) (c :: rest) = option_map (cons (Glob.TLit c)) (Glob.tokenize fuel rest).
Proof. destruct c as [[] [] [] [] [] [] [] []]; intros H; try discriminate; reflexivity. Qed.

Lemma tokenize_plain fuel p r :
  Forall (fun c => glob_plain c = true) p ->
  Glob.tokenize (length p + fuel) (p ++ r) =
  option_map (app (map Glob.TLit p)) (Glob.tokenize fuel r).
Proof.
  intros H. induction H as [|c p Hc H IH].
  - simpl. destruct (Glob.tokenize fuel r); reflexivity.
  - change (length (c :: p) + fuel) with (S (length p + fuel)).
    change ((c :: p) ++ r)%list with (c :: (p ++ r))%list.
    rewrite (tokenize_plain_cons _ c _ Hc), IH.
    destruct (Glob.tokenize fuel r); reflexivity.
Qed.

Lemma mtoks_lits p ts n :
  Glob.mtoks (map Glob.TLit p ++ ts) n = true <->
  exists n', n = (p ++ n')%list /\ Glob.mtoks ts n' = true.
Proof.
  revert n. induction p as [|c p IH]; intros n; simpl.
  - split; [intros H; exists n; split; [reflexivity|exact H]|].
    intros [n' [-> H]]. exact H.
  - destruct n as [|d n].
    + split; [discriminate|]. intros [n' [H _]]. discriminate.
    + rewrite andb_true_iff, Ascii.eqb_eq, IH. split.
      * intros [-> [n' [-> H]]]. exists n'. split; [reflexivity|exact H].
      * intros [n' [Hn H]]. injection Hn as -> ->. split; [reflexivity|].
        exists n'. split; [reflexivity|exact H].
Qed.

Lemma mtoks_star ts n :
  Glob.mtoks (Glob.TStar :: ts) n = true <->
  exists w n', n = (w ++ n')%list /\ ~ List.In "/"%char w /\ Glob.mtoks ts n' = true.
Proof.
  induction n as [|c n IH].
  - change (Glob.mtoks (Glob.TStar :: ts) []) with (Glob.mtoks ts [] || false).
    rewrite orb_false_r. split.
    + intros H. exists [], []. split; [reflexivity|]. split; [intros []|exact H].
    + intros [w [n' [Hn [_ H]]]]. destruct w; [|discriminate]. simpl in Hn. subst n'. exact H.
  - change (Glob.mtoks (Glob.TStar :: ts) (c :: n))
      with (Glob.mtoks ts (c :: n) || (negb (Ascii.eqb c "/") && Glob.mtoks (Glob.TStar :: ts) n)).
    rewrite orb_true_iff, andb_true_iff, IH, negb_true_iff. split.
    + intros [H | [Hc [w [n' [-> [Hw H]]]]]].
      * exists [], (c :: n). split; [reflexivity|]. split; [intros []|exact H].
      * exists (c :: w), n'. split; [reflexivity|]. split; [|exact H].
        intros [Hs|Hs]; [subst c; discriminate|exact (Hw Hs)].
    + intros [w [n' [Hn [Hw H]]]]. destruct w as [|d w].
      * left. simpl in Hn. subst n'. exact H.
      * right. injection Hn as -> ->. split.
        -- apply Bool.not_true_is_false. intros E. apply Ascii.eqb_eq in E. subst d.
           apply Hw. left. reflexivity.
        -- exists w, n'. split; [reflexivity|]. split; [|exact H].
           intros Hs. apply Hw. right. exact Hs.
Qed.

Lemma mtoks_nil n : Glob.mtoks [] n = true <-> n = [].
Proof. destruct n; simpl; split; intros H; (reflexivity || discriminate). Qed.

(** X11. For literal strings [p1] and [p2] (no [*], [?], [[] or [\]),
    the pattern [p1 ++ p2] matches exactly the name [p1 ++ p2], and the
    pattern [p1 ++ "*" ++ p2] matches exactly the names [p1 ++ w ++ p2]
    where [w] holds no slash. *)
Theorem glob_literal_and_star (p1 p2 name : string)
  (H1 : Forall (fun c => glob_plain c = true) (list_ascii_of_string p1))
  (H2 : Forall (fun c => glob_plain c = true) (list_ascii_of_string p2)) :
  (Glob.Match (p1 ++ p2) name = true <-> name = p1 ++ p2) /\
  (Glob.Match (p1 ++ "*" ++ p2) name = true <->
   exists w, name = p1 ++ w ++ p2 /\ ~ List.In "/"%char (list_ascii_of_string w)).
Proof.
  set (l1 := list_ascii_of_string p1) in *. set (l2 := list_ascii_of_string p2) in *.
  assert (Hnil : forall l, Glob.tokenize (length l + 0) (l ++ []) = Some (map Glob.TLit l) ->
                 Glob.tokenize (length l) l = Some (map Glob.TLit l)).
  { intros l. rewrite Nat.add_0_r, app_nil_r. exact (fun H => H). }
  assert (T2 : Glob.tokenize (length l2) l2 = Some (map Glob.TLit l2)).
  { apply Hnil. rewrite (tokenize_plain 0 l2 [] H2). simpl. rewrite app_nil_r. reflexivity. }
  assert (Hinj : forall a b, list_ascii_of_string a = list_ascii_of_string b -> a = b).
  { intros a b H. rewrite <- (string_of_list_ascii_of_string a),
                          <- (string_of_list_ascii_of_string b), H. reflexivity. }
  split.
  - unfold Glob.Match. rewrite list_ascii_of_string_app. fold l1 l2.
    rewrite length_app.
    rewrite (tokenize_plain (length l2) l1 l2 H1), T2. simpl option_map. cbv iota.
    rewrite <- map_app, <- (app_nil_r (map Glob.TLit (l1 ++ l2))), mtoks_lits.
    split.
    + intros [n' [Hn Hm]]. apply mtoks_nil in Hm. subst n'. rewrite app_nil_r in Hn.
      apply Hinj. rewrite Hn, list_ascii_of_string_app. reflexivity.
    + intros ->. exists []. rewrite app_nil_r, list_ascii_of_string_app.
      split; [reflexivity|reflexivity].
  - unfold Glob.Match. rewrite !list_ascii_of_string_app. fold l1 l2. simpl.
    rewrite length_app. simpl length.
    rewrite (tokenize_plain (S (length l2)) l1 ("*"%char :: l2) H1). simpl.
    rewrite T2. simpl. rewrite mtoks_lits.
    split.
    + intros [n' [Hn Hm]]. apply mtoks_star in Hm. destruct Hm as [w [n'' [-> [Hw Hm]]]].
      rewrite <- (app_nil_r (map Glob.TLit l2)), mtoks_lits in Hm.
      destruct Hm as [n3 [-> Hm]]. apply mtoks_nil in Hm. subst n3. rewrite app_nil_r in Hn.
      exists (string_of_list_ascii w). split.
      * apply Hinj. rewrite Hn, !list_ascii_of_string_app, list_ascii_of_string_of_list_ascii.
        reflexivity.
      * rewrite list_ascii_of_string_of_list_ascii. exact Hw.
    + intros [w [-> Hw]]. rewrite !list_ascii_of_string_app. fold l1 l2.
      exists (list_ascii_of_string w ++ l2)%list. split; [reflexivity|].
      apply mtoks_star. exists (list_ascii_of_string w), l2.
      split; [reflexivity|]. split; [exact Hw|].
      rewrite <- (app_nil_r (map Glob.TLit l2)), mtoks_lits.
      exists []. rewrite app_nil_r. split; reflexivity.
Qed.

Lemma glob_literal_and_star_witness :
  Glob.Match "/v1/*" "/v1/batch" = true /\ Glob.Match "/v1/*" "/v1/a/b" = false.
Proof.
  assert (H1 : Forall (fun c => glob_plain c = true) (list_ascii_of_string "/v1/"))
    by repeat constructor.
  assert (H2 : Forall (fun c => glob_plain c = true) (list_ascii_of_string "")) by constructor.
  destruct (glob_literal_and_star "/v1/" "" "/v1/batch" H1 H2) as [_ [_ Hs]].
  split.
  - apply Hs. exists "batch". split; [reflexivity|]. simpl. intuition discriminate.
  - reflexivity.
Defined.

(** ** JS [SourceConfig.extractBaseDomain] (config/source-config.js) *)

(** X12. The JS base domain ignores a port: for a host without ":",
    the base domain of [host ++ ":" ++ port] is that of [host]. *)
Theorem js_extractBaseDomain_port (host port : string)
  (H : count_char ":" host = 0) :
  js_extractBaseDomain (host ++ ":" ++ port) = js_extractBaseDomain host.
Proof.
  unfold js_extractBaseDomain.
  assert (Hne : String.eqb (host ++ ":" ++ port) "" = false)
    by (destruct host; reflexivity).
  rewrite Hne.
  assert (Hh : hd "" (Str.split ":" (host ++ ":" ++ port)) = host).
  { change (":" ++ port) with (String ":" port).
    rewrite split_app, (split_nosep _ _ H). reflexivity. }
  rewrite Hh.
  destruct (String.eqb host "") eqn:E; [|rewrite (split_nosep _ _ H); reflexivity].
  apply String.eqb_eq in E. subst host. reflexivity.
Qed.

Lemma js_extractBaseDomain_port_witness :
  js_extractBaseDomain "www.bbc.co.uk:8443" = "bbc.co.uk".
Proof.
  assert (H : count_char ":" "www.bbc.co.uk" = 0) by reflexivity.
  change "www.bbc.co.uk:8443" with ("www.bbc.co.uk" ++ ":" ++ "8443").
  rewrite (js_extractBaseDomain_port "www.bbc.co.uk" "8443" H). vm_compute. reflexivity.
Defined.

(** ** The URL rebuilt by [handleRequest] and [url.Parse] *)

Lemma slen_app a b : String.length (a ++ b) = String.length a + String.length b.
Proof. induction a as [|c a IH]; simpl; [reflexivity|]. rewrite IH. reflexivity. Qed.

Lemma sapp_cons c a b : String c a ++ b = String c (a ++ b).
Proof. reflexivity. Qed.

Lemma sapp_nil_r a : a ++ "" = a.
Proof. induction a as [|c a IH]; [reflexivity|]. rewrite sapp_cons, IH. reflexivity. Qed.

Lemma sapp_assoc a b c : a ++ b ++ c = (a ++ b) ++ c.
Proof. induction a as [|d a IH]; [reflexivity|]. rewrite !sapp_cons, IH. reflexivity. Qed.

Lemma substring_all s : substring 0 (String.length s) s = s.
Proof. induction s as [|c s IH]; simpl; [reflexivity|]. rewrite IH. reflexivity. Qed.

Lemma substring_prefix a b : substring 0 (String.length a) (a ++ b) = a.
Proof.
  induction a as [|c a IH]; [destruct b; reflexivity|].
  rewrite sapp_cons. simpl. rewrite IH. reflexivity.
Qed.

Lemma substring_suffix a b m : substring (String.length a) m (a ++ b) = substring 0 m b.
Proof. induction a as [|c a IH]; [reflexivity|]. rewrite sapp_cons. exact IH. Qed.

Lemma substring_rest a b :
  substring (String.length a) (String.length (a ++ b) - String.length a) (a ++ b) = b.
Proof.
  rewrite substring_suffix, slen_app.
  replace (String.length a + String.length b - String.length a) with (String.length b) by lia.
  apply substring_all.
Qed.

Lemma cut_none c s : count_char c s = 0 -> cut c s = None.
Proof.
  induction s as [|d s IH]; simpl; intros H; [reflexivity|].
  destruct (Ascii.eqb c d); [discriminate|]. rewrite IH by exact H. reflexivity.
Qed.

Lemma cut_app c a b : count_char c a = 0 -> cut c (a ++ String c b) = Some (a, b).
Proof.
  induction a as [|d a IH]; simpl; intros H; [rewrite Ascii.eqb_refl; reflexivity|].
  destruct (Ascii.eqb c d); [discriminate|]. rewrite IH by exact H. reflexivity.
Qed.

Lemma index_of_none c s : count_char c s = 0 -> Str.index_of c s = None.
Proof.
  induction s as [|d s IH]; simpl; intros H; [reflexivity|].
  destruct (Ascii.eqb c d); [discriminate|]. rewrite IH by exact H. reflexivity.
Qed.

Lemma index_of_app c a b :
  count_char c a = 0 -> Str.index_of c (a ++ String c b) = Some (String.length a).
Proof.
  induction a as [|d a IH]; simpl; intros H; [rewrite Ascii.eqb_refl; reflexivity|].
  destruct (Ascii.eqb c d); [discriminate|]. rewrite IH by exact H. reflexivity.
Qed.

Lemma last_index_none c s : count_char c s = 0 -> last_index c s = None.
Proof.
  intros H. unfold last_index.
  match goal with |- ?go 0%nat s None = None =>
    enough (G : forall i acc, go i s acc = acc) by apply G end.
  induction s as [|d s IH]; intros i acc; [reflexivity|].
  simpl in H. destruct (Ascii.eqb c d) eqn:E; [discriminate|].
  apply IH. exact H.
Qed.

Lemma requestURL_parse_aux (req : Request)
  (Hsch : Scheme (ReqURL req) = "")
  (Hh : Forall (fun c => count_char c (ReqHost req) = 0) ["/"; "?"; "#"; "@"; ":"; "["]%char)
  (Hp : Path (ReqURL req) = "" \/ exists p', Path (ReqURL req) = String "/" p')
  (Hpq : count_char "?" (Path (ReqURL req)) = 0 /\ count_char "#" (Path (ReqURL req)) = 0)
  (Hq : count_char "#" (RawQuery (ReqURL req)) = 0) :
  parseURL (requestURL req) =
    Some (mkURL "https" (ReqHost req) (Path (ReqURL req)) (RawQuery (ReqURL req))) /\
  Hostname (mkURL "https" (ReqHost req) (Path (ReqURL req)) (RawQuery (ReqURL req)))
    = ReqHost req.
Proof.
  unfold requestURL. rewrite Hsch. simpl String.eqb. cbv iota.
  set (h := ReqHost req) in *. set (p := Path (ReqURL req)) in *.
  set (q := RawQuery (ReqURL req)) in *.
  inversion Hh as [|? ? Hs Hh1]; inversion Hh1 as [|? ? Hqm Hh2];
    inversion Hh2 as [|? ? Hhash Hh3]; inversion Hh3 as [|? ? Hat Hh4];
    inversion Hh4 as [|? ? Hcolon Hh5]; inversion Hh5 as [|? ? Hbr _].
  destruct Hpq as [Hpq Hph].
  set (qs := if String.eqb q "" then "" else "?" ++ q).
  assert (Hqs : count_char "#" qs = 0).
  { unfold qs. destruct (String.eqb q ""); [reflexivity|]. simpl. exact Hq. }
  split.
  - unfold parseURL.
    assert (Hc : cut_or_all "#" ("https://" ++ h ++ p ++ qs) = ("https://" ++ h ++ p ++ qs, "")).
    { unfold cut_or_all. rewrite cut_none; [reflexivity|].
      rewrite !count_char_app. simpl. lia. }
    rewrite Hc.
    assert (Hg : getScheme ("https://" ++ h ++ p ++ qs) = inr ("https", "//" ++ h ++ p ++ qs)).
    { unfold getScheme.
      change (scheme_colon 0 ("https://" ++ h ++ p ++ qs)) with (Some (Some 5)). cbv iota.
      f_equal. f_equal.
      change ("https://" ++ h ++ p ++ qs) with ("https:" ++ ("//" ++ h ++ p ++ qs)).
      exact (substring_rest "https:" _). }
    rewrite Hg.
    assert (Hq2 : cut_or_all "?" ("//" ++ h ++ p ++ qs) = ("//" ++ h ++ p, q)).
    { unfold cut_or_all, qs. rewrite !sapp_assoc.
      destruct (String.eqb q "") eqn:E.
      - apply String.eqb_eq in E. rewrite sapp_nil_r, cut_none; [subst q; rewrite E; reflexivity|].
        rewrite !count_char_app. simpl. lia.
      - change ("?" ++ q) with (String "?" q). rewrite cut_app; [reflexivity|].
        rewrite !count_char_app. simpl. lia. }
    rewrite Hq2.
    change (Str.is_prefix "//" ("//" ++ h ++ p)) with true.
    change (String.eqb "https" "") with false. cbv iota beta. simpl negb. cbv iota.
    assert (Hr : substring 2 (String.length ("//" ++ h ++ p) - 2) ("//" ++ h ++ p) = h ++ p)
      by exact (substring_rest "//" (h ++ p)).
    rewrite Hr.
    destruct Hp as [Hp0|[p' Hp']].
    + rewrite Hp0. rewrite sapp_nil_r. rewrite index_of_none by exact Hs. cbv iota.
      rewrite last_index_none by exact Hat. reflexivity.
    + rewrite Hp'. rewrite index_of_app by exact Hs. cbv iota.
      rewrite substring_prefix.
      rewrite <- Hp'. rewrite substring_rest.
      rewrite last_index_none by exact Hat. reflexivity.
  - unfold Hostname. simpl Host. rewrite last_index_none by exact Hcolon.
    destruct h as [|c h'] eqn:Eh; [reflexivity|].
    destruct c as [[] [] [] [] [] [] [] []]; try reflexivity; simpl in Hbr; lia.
Qed.

(** Control bytes, which make [url.Parse] fail ([stringContainsCTLByte]). *)
Definition is_ctl (c : ascii) : bool :=
  (nat_of_ascii c <? 32)%nat || (nat_of_ascii c =? 127)%nat.

(** Host bytes that [parseHost] accepts and leaves unchanged: letters,
    digits, "-" and "." (no port, no escape, no IPv6 literal). *)
Definition plain_host_char (c : ascii) : bool :=
  Str.is_letter c || Str.is_digit c || Ascii.eqb c "-" || Ascii.eqb c ".".

(** Path bytes with which [url.Parse] keeps the path as it is: no "?" or
    "#", which would cut it, no "%", which [unescape] would decode or
    reject, and no control byte. *)
Definition plain_path_char (c : ascii) : bool :=
  negb (Ascii.eqb c "?" || Ascii.eqb c "#" || Ascii.eqb c "%" || is_ctl c).

(** Query bytes: no "#" and no control byte ([RawQuery] is not decoded). *)
Definition plain_query_char (c : ascii) : bool :=
  negb (Ascii.eqb c "#" || is_ctl c).

Lemma count_char_forallb (P : ascii -> bool) c s :
  P c = false -> forallb P (list_ascii_of_string s) = true -> count_char c s = 0.
Proof.
  intros Hc. induction s as [|d s IH]; simpl; [reflexivity|].
  intros H. apply andb_prop in H as [Hd Hs].
  destruct (Ascii.eqb c d) eqn:E.
  - apply Ascii.eqb_eq in E. subst d. congruence.
  - apply IH. exact Hs.
Qed.

Lemma requestURL_parse_plain (req : Request)
  (Hsch : Scheme (ReqURL req) = "")
  (Hh : forallb plain_host_char (list_ascii_of_string (ReqHost req)) = true)
  (Hp : Path (ReqURL req) = "" \/ exists p', Path (ReqURL req) = String "/" p')
  (Hpc : forallb plain_path_char (list_ascii_of_string (Path (ReqURL req))) = true)
  (Hqc : forallb plain_query_char (list_ascii_of_string (RawQuery (ReqURL req))) = true) :
  parseURL (requestURL req) =
    Some (mkURL "https" (ReqHost req) (Path (ReqURL req)) (RawQuery (ReqURL req))) /\
  Hostname (mkURL "https" (ReqHost req) (Path (ReqURL req)) (RawQuery (ReqURL req)))
    = ReqHost req.
Proof.
  apply requestURL_parse_aux; [exact Hsch| |exact Hp| |].
  - repeat constructor; apply (count_char_forallb plain_host_char); auto.
  - split; apply (count_char_forallb plain_path_char); auto.
  - apply (count_char_forallb plain_query_char); auto.
Qed.

(** X13. For a request without scheme whose Host header is made of
    letters, digits, "-" and ".", whose path is empty or starts with "/"
    and holds no "?", "#", "%" or control byte, and whose query holds no
    "#" or control byte, the URL string [handleRequest] builds parses
    back, with [url.Parse], to scheme "https", that host, that path and
    that query (with no "%" the path is not decoded), and [URL.Hostname]
    returns the Host header unchanged. *)
Theorem requestURL_parse (req : Request)
  (Hsch : Scheme (ReqURL req) = "")
  (Hh : forallb plain_host_char (list_ascii_of_string (ReqHost req)) = true)
  (Hp : Path (ReqURL req) = "" \/ exists p', Path (ReqURL req) = String "/" p')
  (Hpc : forallb plain_path_char (list_ascii_of_string (Path (ReqURL req))) = true)
  (Hqc : forallb plain_query_char (list_ascii_of_string (RawQuery (ReqURL req))) = true) :
  parseURL (requestURL req) =
    Some (mkURL "https" (ReqHost req) (Path (ReqURL req)) (RawQuery (ReqURL req))) /\
  Hostname (mkURL "https" (ReqHost req) (Path (ReqURL req)) (RawQuery (ReqURL req)))
    = ReqHost req.
Proof. exact (requestURL_parse_plain req Hsch Hh Hp Hpc Hqc). Qed.


(** A proxied request without scheme, as [goproxy] may hand it over. *)
Definition gaRequest : Request :=
  mkRequest "POST" (mkURL "" "" "/g/collect" "v=2") "www.google-analytics.com" None.

Lemma requestURL_parse_witness :
  parseURL (requestURL gaRequest) =
    Some (mkURL "https" "www.google-analytics.com" "/g/collect" "v=2").
Proof.
  assert (Hsch : Scheme (ReqURL gaRequest) = "") by reflexivity.
  assert (Hh : forallb plain_host_char (list_ascii_of_string (ReqHost gaRequest)) = true)
    by reflexivity.
  assert (Hp : Path (ReqURL gaRequest) = "" \/
               exists p', Path (ReqURL gaRequest) = String "/" p')
    by (right; exists "g/collect"; reflexivity).
  assert (Hpc : forallb plain_path_char (list_ascii_of_string (Path (ReqURL gaRequest))) = true)
    by reflexivity.
  assert (Hqc : forallb plain_query_char (list_ascii_of_string (RawQuery (ReqURL gaRequest)))
                = true) by reflexivity.
  exact (proj1 (requestURL_parse gaRequest Hsch Hh Hp Hpc Hqc)).
Defined.

(** X14. For a request as in X13, whether a source matches the URL built
    by [handleRequest] depends only on the source being enabled, on the
    base domain of the Host header being the lowercased source domain,
    and on the path matching the source's URL pattern when it has one. *)
Theorem Matches_requestURL (s : Source) (req : Request)
  (Hsch : Scheme (ReqURL req) = "")
  (Hh : forallb plain_host_char (list_ascii_of_string (ReqHost req)) = true)
  (Hp : Path (ReqURL req) = "" \/ exists p', Path (ReqURL req) = String "/" p')
  (Hpc : forallb plain_path_char (list_ascii_of_string (Path (ReqURL req))) = true)
  (Hqc : forallb plain_query_char (list_ascii_of_string (RawQuery (ReqURL req))) = true) :
  Matches s (requestURL req) =
    Enabled s && String.eqb (extractBaseDomain (ReqHost req)) (Str.lower (Domain s)) &&
    (String.eqb (URLPattern s) "" || matchGlob (Path (ReqURL req)) (URLPattern s)).
Proof.
  destruct (requestURL_parse_plain req Hsch Hh Hp Hpc Hqc) as [E H].
  unfold Matches. rewrite E. cbv iota. simpl Path. rewrite H.
  destruct (Enabled s); [|reflexivity]. simpl negb. cbv iota.
  destruct (String.eqb (extractBaseDomain (ReqHost req)) (Str.lower (Domain s))); [|reflexivity].
  destruct (String.eqb (URLPattern s) ""); reflexivity.
Qed.

Lemma Matches_requestURL_witness :
  Matches (nth 0 GetDefaultSources segmentSource) (requestURL gaRequest) = true.
Proof.
  assert (Hsch : Scheme (ReqURL gaRequest) = "") by reflexivity.
  assert (Hh : forallb plain_host_char (list_ascii_of_string (ReqHost gaRequest)) = true)
    by reflexivity.
  assert (Hp : Path (ReqURL gaRequest) = "" \/
               exists p', Path (ReqURL gaRequest) = String "/" p')
    by (right; exists "g/collect"; reflexivity).
  assert (Hpc : forallb plain_path_char (list_ascii_of_string (Path (ReqURL gaRequest))) = true)
    by reflexivity.
  assert (Hqc : forallb plain_query_char (list_ascii_of_string (RawQuery (ReqURL gaRequest)))
                = true) by reflexivity.
  rewrite (Matches_requestURL _ gaRequest Hsch Hh Hp Hpc Hqc).
  vm_compute. reflexivity.
Defined.

Lemma extractBaseDomain_lower h : Str.lower (extractBaseDomain h) = extractBaseDomain h.
Proof.
  unfold extractBaseDomain.
  assert (Hl : Str.lower (Str.lower h) = Str.lower h) by apply lower_idem.
  destruct (2 <=? length (Str.split "." (Str.lower h)))%nat; [|exact Hl].
  apply join_lower_fixed; [reflexivity|].
  apply Forall_last_n. apply split_lower_fixed. exact Hl.
Qed.

Lemma unmatchedKey_lower h : Str.lower h = h -> unmatchedKey h = extractBaseDomain h.
Proof. intros H. unfold unmatchedKey, extractBaseDomain. rewrite H. reflexivity. Qed.

(** X15. The key under which an unmatched request is counted can serve as
    a source domain: for a request as in X13 whose Host header is
    lowercase, an enabled source without URL pattern whose domain is that
    key matches the URL built by [handleRequest]. *)
Theorem unmatched_key_source_matches (s : Source) (req : Request)
  (Hsch : Scheme (ReqURL req) = "")
  (Hh : forallb plain_host_char (list_ascii_of_string (ReqHost req)) = true)
  (Hp : Path (ReqURL req) = "" \/ exists p', Path (ReqURL req) = String "/" p')
  (Hpc : forallb plain_path_char (list_ascii_of_string (Path (ReqURL req))) = true)
  (Hqc : forallb plain_query_char (list_ascii_of_string (RawQuery (ReqURL req))) = true)
  (Hl : Str.lower (ReqHost req) = ReqHost req)
  (He : Enabled s = true) (Hd : Domain s = unmatchedKey (ReqHost req))
  (Hu : URLPattern s = "") :
  Matches s (requestURL req) = true.
Proof.
  destruct (requestURL_parse_plain req Hsch Hh Hp Hpc Hqc) as [E H].
  unfold Matches. rewrite He, E. cbv iota. rewrite H, Hd, (unmatchedKey_lower _ Hl),
    extractBaseDomain_lower, String.eqb_refl, Hu. reflexivity.
Qed.

(** A source built from the key "example.com" counted for the Host
    "shop.example.com". *)
Definition shopRequest : Request :=
  mkRequest "POST" (mkURL "" "" "/checkout" "") "shop.example.com"
    (Some (JObj [("item", JStr "x")])).

Definition exampleSource : Source :=
  mkSource "example" "Example" "📊" "#6366F1" true "example.com" "" [] "" "".

Lemma unmatched_key_source_matches_witness :
  Matches exampleSource (requestURL shopRequest) = true.
Proof.
  refine (unmatched_key_source_matches exampleSource shopRequest eq_refl eq_refl _ eq_refl
            eq_refl eq_refl eq_refl eq_refl eq_refl).
  right. exists "checkout". reflexivity.
Defined.

(** ** Patterns without slash *)

(** Tokens that never consume a slash. *)
Definition tok_noslash (t : Glob.tok) : Prop :=
  match t with
  | Glob.TStar | Glob.TQuest => True
  | Glob.TLit c => c <> "/"%char
  | Glob.TClass _ _ => False
  end.

Lemma glob_not_plain c :
  glob_plain c = false -> c = "*"%char \/ c = "?"%char \/ c = "["%char \/ c = "\"%char.
Proof.
  unfold glob_plain. intros H. apply negb_false_iff, existsb_exists in H.
  destruct H as [x [Hx E]]. apply Ascii.eqb_eq in E. subst x.
  simpl in Hx. destruct Hx as [<-|[<-|[<-|[<-|[]]]]]; tauto.
Qed.

Lemma tokenize_noslash fuel : forall p ts,
  Glob.tokenize fuel p = Some ts ->
  Forall (fun c => c <> "/"%char /\ c <> "["%char) p -> Forall tok_noslash ts.
Proof.
  induction fuel as [|fuel IH]; intros p ts H Hp.
  - simpl in H. injection H as <-. constructor.
  - destruct p as [|c rest]; [simpl in H; injection H as <-; constructor|].
    inversion Hp as [|? ? [Hc1 Hc2] Hr]; subst.
    destruct (glob_plain c) eqn:Pc.
    + rewrite tokenize_plain_cons in H by exact Pc.
      destruct (Glob.tokenize fuel rest) eqn:T; simpl in H; [|discriminate].
      injection H as <-. constructor; [exact Hc1|]. exact (IH _ _ T Hr).
    + destruct (glob_not_plain c Pc) as [ -> | [ -> | [ -> | -> ]]].
      * simpl in H. destruct (Glob.tokenize fuel rest) eqn:T; simpl in H; [|discriminate].
        injection H as <-. constructor; [exact I|]. exact (IH _ _ T Hr).
      * simpl in H. destruct (Glob.tokenize fuel rest) eqn:T; simpl in H; [|discriminate].
        injection H as <-. constructor; [exact I|]. exact (IH _ _ T Hr).
      * contradiction.
      * destruct rest as [|d rest]; simpl in H; [discriminate|].
        inversion Hr as [|? ? [Hd1 _] Hr']; subst.
        destruct (Glob.tokenize fuel rest) eqn:T; simpl in H; [|discriminate].
        injection H as <-. constructor; [exact Hd1|]. exact (IH _ _ T Hr').
Qed.

Lemma mtoks_noslash ts : forall n,
  Forall tok_noslash ts -> Glob.mtoks ts n = true -> ~ List.In "/"%char n.
Proof.
  induction ts as [|t ts IH]; intros n Ht H.
  - apply mtoks_nil in H. subst n. intros [].
  - inversion Ht as [|? ? Hts Ht']; subst.
    destruct t as [| |d|neg rs]; simpl in Hts.
    + apply mtoks_star in H. destruct H as [w [n' [-> [Hw H]]]].
      intros Hin. apply in_app_iff in Hin. destruct Hin as [Hin|Hin]; [exact (Hw Hin)|].
      exact (IH n' Ht' H Hin).
    + destruct n as [|c n']; [discriminate|].
      simpl in H. apply andb_true_iff in H. destruct H as [Hc H].
      intros [E|Hin]; [subst c; discriminate|exact (IH n' Ht' H Hin)].
    + destruct n as [|c n']; [discriminate|].
      simpl in H. apply andb_true_iff in H. destruct H as [Hc H].
      apply Ascii.eqb_eq in Hc. subst c.
      intros [E|Hin]; [exact (Hts E)|exact (IH n' Ht' H Hin)].
    + contradiction.
Qed.

Lemma Match_noslash p name :
  Forall (fun c => c <> "/"%char /\ c <> "["%char) (list_ascii_of_string p) ->
  Glob.Match p name = true -> ~ List.In "/"%char (list_ascii_of_string name).
Proof.
  intros Hp H. unfold Glob.Match in H.
  destruct (Glob.tokenize _ _) as [ts|] eqn:T; [|discriminate].
  exact (mtoks_noslash ts _ (tokenize_noslash _ _ _ T Hp) H).
Qed.

Lemma replace_double_star_cases c r :
  Str.replace_double_star (String c r) = String c (Str.replace_double_star r) \/
  exists rest, r = String "*" rest /\
    Str.replace_double_star (String c r) = String c (Str.replace_double_star rest).
Proof.
  destruct c as [[] [] [] [] [] [] [] []]; try (left; reflexivity).
  destruct r as [|d r]; [left; reflexivity|].
  destruct d as [[] [] [] [] [] [] [] []]; try (left; reflexivity).
  right. exists r. split; reflexivity.
Qed.

Lemma replace_double_star_chars (P : ascii -> Prop) n : forall s,
  String.length s <= n ->
  Forall P (list_ascii_of_string s) -> Forall P (list_ascii_of_string (Str.replace_double_star s)).
Proof.
  induction n as [|n IH]; intros s Hl H.
  - destruct s; [constructor|simpl in Hl; lia].
  - destruct s as [|c r]; [constructor|].
    simpl in H. inversion H as [|? ? Hc Hr]; subst.
    destruct (replace_double_star_cases c r) as [E|[rest [-> E]]]; rewrite E; simpl;
      constructor; try exact Hc.
    + apply IH; [simpl in Hl; lia|exact Hr].
    + simpl in Hr. inversion Hr; subst. apply IH; [simpl in Hl; lia|assumption].
Qed.

(** X16. A URL pattern that holds no "/" (and no character class) never
    matches a path containing "/": [matchGlob] with such a pattern, in
    either of its two tries, only accepts names without slash; so such a
    pattern never matches a non-empty URL path. *)
Theorem matchGlob_noslash (name pattern : string)
  (Hp : Forall (fun c => c <> "/"%char /\ c <> "["%char) (list_ascii_of_string pattern))
  (H : matchGlob name pattern = true) :
  ~ List.In "/"%char (list_ascii_of_string name).
Proof.
  unfold matchGlob in H.
  destruct (Glob.Match pattern name) eqn:E1; [exact (Match_noslash _ _ Hp E1)|].
  destruct (Str.contains pattern "**"); [|discriminate].
  refine (Match_noslash _ _ _ H).
  apply (replace_double_star_chars _ (String.length pattern)); [lia|exact Hp].
Qed.

Lemma matchGlob_noslash_witness :
  matchGlob "rp.gif" "*.gif" = true /\ ~ List.In "/"%char (list_ascii_of_string "rp.gif").
Proof.
  assert (Hp : Forall (fun c => c <> "/"%char /\ c <> "["%char) (list_ascii_of_string "*.gif"))
    by (repeat constructor; discriminate).
  assert (H : matchGlob "rp.gif" "*.gif" = true) by (vm_compute; reflexivity).
  split; [exact H|exact (matchGlob_noslash _ _ Hp H)].
Defined.

(** ** Indexed path segments ([parseJSONPath], [parseIndex]) *)

(** The decimal value of a string of digits, read left to right. *)
Fixpoint decimal_value (acc : Z) (ds : list ascii) : Z :=
  match ds with
  | [] => acc
  | c :: rest => decimal_value (acc * 10 + (Z.of_nat (nat_of_ascii c) - 48)) rest
  end.

Lemma is_digit_range c : Str.is_digit c = true -> 48 <= nat_of_ascii c <= 57.
Proof.
  unfold Str.is_digit. intros H. apply andb_true_iff in H.
  destruct H as [H1 H2]. apply Nat.leb_le in H1, H2. lia.
Qed.

Lemma is_digit_not_bracket c : Str.is_digit c = true -> Str.is_bracket c = false.
Proof.
  intros H. apply is_digit_range in H. unfold Str.is_bracket.
  destruct (Ascii.eqb c "[") eqn:E1;
    [apply Ascii.eqb_eq in E1; subst c; change (nat_of_ascii "[") with 91 in H; lia|].
  destruct (Ascii.eqb c "]") eqn:E2;
    [apply Ascii.eqb_eq in E2; subst c; change (nat_of_ascii "]") with 93 in H; lia|].
  reflexivity.
Qed.

Lemma decimal_value_ge acc ds :
  (0 <= acc)%Z -> Forall (fun c => Str.is_digit c = true) ds -> (acc <= decimal_value acc ds)%Z.
Proof.
  revert acc. induction ds as [|c ds IH]; intros acc Ha Hd; simpl; [lia|].
  inversion Hd as [|? ? Hc Hds]; subst. apply is_digit_range in Hc.
  specialize (IH (acc * 10 + (Z.of_nat (nat_of_ascii c) - 48))%Z ltac:(lia) Hds). lia.
Qed.

Lemma parseIndex_aux_value acc ds :
  (0 <= acc)%Z -> Forall (fun c => Str.is_digit c = true) ds ->
  (decimal_value acc ds < 2 ^ 63)%Z -> parseIndex_aux acc ds = decimal_value acc ds.
Proof.
  revert acc. induction ds as [|c ds IH]; intros acc Ha Hd Hb; simpl; [reflexivity|].
  inversion Hd as [|? ? Hc Hds]; subst. rewrite Hc.
  pose proof (is_digit_range c Hc) as Hr. simpl in Hb.
  pose proof (decimal_value_ge (acc * 10 + (Z.of_nat (nat_of_ascii c) - 48))%Z ds
                ltac:(lia) Hds) as Hg.
  rewrite wrap64_small by lia. apply IH; [lia|exact Hds|exact Hb].
Qed.

Lemma trim_left_keep c r : Str.is_bracket c = false -> Str.trim_left (String c r) = String c r.
Proof. intros H. simpl. rewrite H. reflexivity. Qed.

Lemma trim_left_drop c r : Str.is_bracket c = true -> Str.trim_left (String c r) = Str.trim_left r.
Proof. intros H. simpl. rewrite H. reflexivity. Qed.

Lemma trim_left_keep_list x l :
  Str.is_bracket x = false ->
  Str.trim_left (string_of_list_ascii (x :: l)) = string_of_list_ascii (x :: l).
Proof. intros H. simpl. rewrite H. reflexivity. Qed.

Lemma rev_string_involutive s : Str.rev_string (Str.rev_string s) = s.
Proof.
  unfold Str.rev_string. rewrite list_ascii_of_string_of_list_ascii, rev_involutive.
  apply string_of_list_ascii_of_string.
Qed.

Lemma trim_brackets_digits ds :
  Forall (fun c => Str.is_digit c = true) (list_ascii_of_string ds) ->
  Str.trim_brackets ("[" ++ ds ++ "]") = ds.
Proof.
  intros Hd. unfold Str.trim_brackets.
  change (Str.trim_left ("[" ++ ds ++ "]")) with (Str.trim_left (ds ++ "]")).
  destruct ds as [|c r]; [reflexivity|].
  inversion Hd as [|? ? Hc Hr]; subst.
  rewrite sapp_cons, trim_left_keep by exact (is_digit_not_bracket c Hc).
  rewrite <- sapp_cons.
  set (L := list_ascii_of_string (String c r)).
  assert (HR : Str.rev_string (String c r ++ "]") = String "]" (string_of_list_ascii (rev L))).
  { unfold Str.rev_string. rewrite list_ascii_of_string_app. simpl list_ascii_of_string.
    rewrite rev_app_distr. reflexivity. }
  rewrite HR, (trim_left_drop "]" _ eq_refl).
  assert (HL : exists x l, rev L = x :: l /\ Str.is_digit x = true).
  { destruct (rev L) as [|x l] eqn:E.
    - apply (f_equal (@length ascii)) in E. rewrite length_rev in E. simpl in E. discriminate.
    - exists x, l. split; [reflexivity|].
      assert (Hx : List.In x L) by (apply in_rev; rewrite E; left; reflexivity).
      exact (proj1 (List.Forall_forall _ _) Hd x Hx). }
  destruct HL as [x [l [E Hx]]].
  rewrite E, trim_left_keep_list by exact (is_digit_not_bracket x Hx).
  rewrite <- E. change (string_of_list_ascii (rev L)) with (Str.rev_string (String c r)).
  apply rev_string_involutive.
Qed.

(** X17. A path made of a key (without "." or "[") followed by "[",
    decimal digits and "]" selects, in [getNestedValue], the element at
    that decimal index (below 2^63) of the array stored under the key,
    and is [nil] when the key is missing, its value is not an array, or
    the index is out of range. *)
Theorem getNestedValue_indexed (data : list (string * json)) (key digits : string)
  (Hk : count_char "[" key = 0 /\ count_char "." key = 0)
  (Hd : Forall (fun c => Str.is_digit c = true) (list_ascii_of_string digits))
  (Hb : (decimal_value 0 (list_ascii_of_string digits) < 2 ^ 63)%Z) :
  let i := decimal_value 0 (list_ascii_of_string digits) in
  parseJSONPath (key ++ "[" ++ digits ++ "]") = [mkPart key i] /\
  getNestedValue data (key ++ "[" ++ digits ++ "]") =
    match lookup_key key data with
    | Some (JArr arr) => match nth_error arr (Z.to_nat i) with Some v => v | None => JNull end
    | _ => JNull
    end.
Proof.
  cbv zeta. destruct Hk as [Hk1 Hk2].
  set (i := decimal_value 0 (list_ascii_of_string digits)).
  assert (Hi : (0 <= i)%Z) by (apply decimal_value_ge; [lia|exact Hd]).
  assert (Hdot : count_char "." (key ++ "[" ++ digits ++ "]") = 0).
  { rewrite !count_char_app. rewrite Hk2. simpl.
    assert (count_char "." digits = 0).
    { clear -Hd. induction digits as [|c r IH]; [reflexivity|].
      inversion Hd as [|? ? Hc Hr]; subst. cbn [count_char]. rewrite (IH Hr).
      apply is_digit_range in Hc.
      destruct (Ascii.eqb "." c) eqn:E;
        [apply Ascii.eqb_eq in E; subst c; change (nat_of_ascii ".") with 46 in Hc; lia|].
      reflexivity. }
    lia. }
  assert (Hseg : parseSegment (key ++ "[" ++ digits ++ "]") = mkPart key i).
  { unfold parseSegment.
    change ("[" ++ digits ++ "]") with (String "[" (digits ++ "]")).
    rewrite index_of_app by exact Hk1. cbv iota.
    rewrite substring_prefix, substring_rest.
    change (String "[" (digits ++ "]")) with ("[" ++ digits ++ "]").
    rewrite trim_brackets_digits by exact Hd.
    unfold parseIndex. rewrite parseIndex_aux_value by (lia || exact Hd || exact Hb).
    reflexivity. }
  assert (Hp : parseJSONPath (key ++ "[" ++ digits ++ "]") = [mkPart key i]).
  { unfold parseJSONPath. rewrite split_nosep by exact Hdot. simpl. rewrite Hseg. reflexivity. }
  split; [exact Hp|].
  unfold getNestedValue. rewrite Hp. simpl walk. unfold step. simpl Key; simpl Index.
  destruct (lookup_key key data) as [[| | | |arr|]|]; try reflexivity;
    destruct (Z.leb_spec 0 i); try lia; try reflexivity.
  destruct (Z.ltb_spec i (Z.of_nat (length arr))).
  - destruct (nth_error arr (Z.to_nat i)) eqn:E; [reflexivity|].
    apply nth_error_None in E. lia.
  - destruct (nth_error arr (Z.to_nat i)) eqn:E; [|reflexivity].
    assert (Z.to_nat i < length arr)%nat by (apply nth_error_Some; congruence). lia.
Qed.

Lemma getNestedValue_indexed_witness :
  getNestedValue [("events", JArr [JStr "a"; JStr "b"; JStr "c"])] "events[2]" = JStr "c".
Proof.
  assert (Hk : count_char "[" "events" = 0 /\ count_char "." "events" = 0)
    by (split; reflexivity).
  assert (Hd : Forall (fun c => Str.is_digit c = true) (list_ascii_of_string "2"))
    by repeat constructor.
  assert (Hb : (decimal_value 0 (list_ascii_of_string "2") < 2 ^ 63)%Z) by reflexivity.
  destruct (getNestedValue_indexed [("events", JArr [JStr "a"; JStr "b"; JStr "c"])]
              "events" "2" Hk Hd Hb) as [_ H].
  exact H.
Defined.

(** ** Native messaging frames (nativehost/host.go) *)

(** Errors of [io.ReadFull] (and so of [binary.Read]). *)
Inductive read_error := ErrEOF | ErrUnexpectedEOF.

(** [io.ReadFull(r, buf)] with [len(buf) = n], on a stream given as the
    list of its remaining bytes: [EOF] when nothing could be read,
    [ErrUnexpectedEOF] when only part of [buf] was filled. *)
Definition readFull (n : nat) (r : list Z) : (list Z * list Z) + read_error :=
  if (length r <? n)%nat then
    (if (length r =? 0)%nat then inr ErrEOF else inr ErrUnexpectedEOF)
  else inl (firstn n r, skipn n r).

(** [binary.Write(w, binary.LittleEndian, uint32 l)]. *)
Definition le32_encode (l : Z) : list Z :=
  [Z.modulo l 256; Z.modulo (l / 256) 256; Z.modulo (l / 65536) 256; Z.modulo (l / 16777216) 256].

(** [binary.Read] of a little-endian [uint32] from its four bytes. *)
Definition le32_decode (bs : list Z) : Z :=
  fold_right (fun b acc => b + 256 * acc)%Z 0%Z bs.

(** The frame [sendResponse] writes for the marshalled [data]: the
    length as a [uint32] (so modulo 2^32), then the bytes. *)
Definition writeFrame (data : list Z) : list Z :=
  (le32_encode (Z.modulo (Z.of_nat (length data)) (2 ^ 32)) ++ data)%list.

(** The framing part of [readMessage]: the length, then [io.ReadFull] of
    that many bytes; [inl (data, rest)] is the payload handed to
    [json.Unmarshal] and the rest of the stream. *)
Definition readFrame (r : list Z) : (list Z * list Z) + read_error :=
  match readFull 4 r with
  | inr e => inr e
  | inl (hdr, rest) =>
      match readFull (Z.to_nat (le32_decode hdr)) rest with
      | inr e => inr e
      | inl (data, rest') => inl (data, rest')
      end
  end.

Lemma le32_roundtrip l : (0 <= l < 2 ^ 32)%Z -> le32_decode (le32_encode l) = l.
Proof.
  intros H. unfold le32_decode, le32_encode. simpl fold_right.
  Z.div_mod_to_equations. lia.
Qed.

Lemma readFull_app n a b : length a = n -> readFull n (a ++ b) = inl (a, b).
Proof.
  intros H. unfold readFull. rewrite length_app.
  destruct (length a + length b <? n)%nat eqn:E; [apply Nat.ltb_lt in E; lia|].
  subst n. rewrite firstn_app, skipn_app, Nat.sub_diag, firstn_all, skipn_all, firstn_O, skipn_O.
  rewrite app_nil_r. reflexivity.
Qed.

(** X18. A frame written by [sendResponse] for at most 2^32 - 1 bytes is
    read back by [readMessage]'s framing as exactly those bytes, leaving
    the rest of the stream; on an empty stream reading fails with [EOF]
    (on which [Run] stops), and on a stream of one to three bytes with
    [ErrUnexpectedEOF]. *)
Theorem frame_roundtrip (data rest : list Z)
  (Hl : (Z.of_nat (length data) < 2 ^ 32)%Z) :
  readFrame (writeFrame data ++ rest)%list = inl (data, rest) /\
  readFrame [] = inr ErrEOF /\
  (forall r, (0 < length r < 4)%nat -> readFrame r = inr ErrUnexpectedEOF).
Proof.
  split; [|split; [reflexivity|]].
  - unfold readFrame, writeFrame. rewrite <- app_assoc.
    rewrite readFull_app by reflexivity. cbv iota beta.
    rewrite Z.mod_small by lia. rewrite le32_roundtrip by lia. rewrite Nat2Z.id.
    rewrite readFull_app by reflexivity. reflexivity.
  - intros r Hr. unfold readFrame, readFull.
    destruct (length r <? 4)%nat eqn:E; [|apply Nat.ltb_ge in E; lia].
    destruct (length r =? 0)%nat eqn:E0; [apply Nat.eqb_eq in E0; lia|]. reflexivity.
Qed.

Lemma frame_roundtrip_witness :
  readFrame (writeFrame [123; 125] ++ [9])%list%Z = inl ([123; 125], [9])%Z.
Proof.
  assert (Hl : (Z.of_nat (length [123; 125]%Z) < 2 ^ 32)%Z) by reflexivity.
  exact (proj1 (frame_roundtrip [123; 125]%Z [9]%Z Hl)).
Defined.
